(** * City spending enricher: a shallow embedding of [enrich.py]

    The development follows the source top-down: Python values and
    their conversions ([float], [str.strip], [str.replace]), the three
    lookup clients, [parse_amount], [enrich_one], [load_rows], the two
    writers and [main].

    Modelling decisions, each stated where it is made:
    - a Python [float] is an IEEE binary64 value, [spec_float] with
      [prec = 53] and [emax = 1024];
    - a Python [str] is a [string] whose characters are code points
      below 256;
    - network calls, console output and exceptions are effects of a
      small writer-and-exception monad [M];
    - the HTTP session and the clock are inputs (oracles). *)

From Stdlib Require Import ZArith Ascii String List Bool Lia.
From Stdlib Require Import Floats.SpecFloat.
From stdpp Require Import gmap strings list sorting.

Local Open Scope string_scope.
Local Open Scope list_scope.
Local Open Scope Z_scope.

#[local] Set Warnings "-register-all,-clear-no-such-hyp".

(** ** Python floats *)

Definition prec : Z := 53.
Definition emax : Z := 1024.

Definition float0 : spec_float := S754_zero false.
Definition float1 : spec_float := S754_finite false 4503599627370496 (-52).

(** [x < y], [x == y] on floats; any comparison with NaN is [False]. *)
Definition float_lt (x y : spec_float) : bool := SFltb x y.
Definition float_eq (x y : spec_float) : bool := SFeqb x y.
Definition float_le (x y : spec_float) : bool := SFleb x y.

Definition is_nan (x : spec_float) : bool :=
  match x with S754_nan => true | _ => false end.

(** [m * 10^e] with sign [neg], rounded to the nearest binary64, ties
    to even; overflow gives an infinity and underflow a signed zero, as
    the conversion used by [float()] does. *)
Definition float_of_decimal (neg : bool) (m : N) (e : Z) : spec_float :=
  match m with
  | N0 => S754_zero neg
  | Npos p =>
      if 0 <=? e
      then binary_round prec emax neg (p * Z.to_pos (10 ^ e)) 0
      else
        let '(q, e', l) :=
          SFdiv_core_binary prec emax (Zpos p) 0 (10 ^ (- e)) 0 in
        binary_round_aux prec emax neg q e' l
  end.

(** [float(n)] for a Python [int]: [None] stands for [OverflowError]. *)
Definition float_of_int (n : Z) : option spec_float :=
  match binary_normalize prec emax n 0 false with
  | S754_infinity _ => None
  | f => Some f
  end.

(** ** Python strings *)

Definition code (c : ascii) : N := N_of_ascii c.

(** [str.isspace] on one character (code points below 256). *)
Definition isspace (c : ascii) : bool :=
  let n := code c in
  ((9 <=? n) && (n <=? 13) || (28 <=? n) && (n <=? 32)
   || (n =? 133) || (n =? 160))%N.

(** C [isspace] in the C locale, which [float()] uses once the text is
    ASCII. *)
Definition c_isspace (c : ascii) : bool :=
  let n := code c in ((9 <=? n) && (n <=? 13) || (n =? 32))%N.

Definition isdigit (c : ascii) : bool :=
  let n := code c in ((48 <=? n) && (n <=? 57))%N.

Definition digit_value (c : ascii) : N := (code c - 48)%N.

Definition tolower (c : ascii) : ascii :=
  let n := code c in
  if ((65 <=? n) && (n <=? 90))%N then ascii_of_N (n + 32) else c.

Fixpoint lstrip_with (sp : ascii -> bool) (s : string) : string :=
  match s with
  | String c s' => if sp c then lstrip_with sp s' else s
  | EmptyString => EmptyString
  end.

Fixpoint rstrip_with (sp : ascii -> bool) (s : string) : string :=
  match s with
  | String c s' =>
      match rstrip_with sp s' with
      | EmptyString => if sp c then EmptyString else String c EmptyString
      | r => String c r
      end
  | EmptyString => EmptyString
  end.

(** [s.strip()] *)
Definition strip (s : string) : string :=
  rstrip_with isspace (lstrip_with isspace s).

(** [s.replace(old, new)] for a non-empty [old]: occurrences are
    replaced left to right without overlap.  [skip] counts the
    characters of a matched occurrence still to be dropped. *)
Fixpoint replace_from (old new : string) (skip : nat) (s : string) : string :=
  match s with
  | EmptyString => EmptyString
  | String c s' =>
      match skip with
      | S k => replace_from old new k s'
      | O =>
          if String.prefix old s
          then (new ++ replace_from old new (Nat.pred (String.length old)) s')%string
          else String c (replace_from old new O s')
      end
  end.

Definition replace (old new s : string) : string := replace_from old new O s.

(** *** [float(s)] for a string

    The text is first made ASCII: a character of code 127 or more
    becomes a space when it is whitespace and [?] otherwise (no code
    point from 127 to 255 is a decimal digit), and the text is cut
    after the first [?]. *)
Fixpoint transform_decimal_and_space (s : string) : string :=
  match s with
  | EmptyString => EmptyString
  | String c s' =>
      if (code c <? 127)%N then String c (transform_decimal_and_space s')
      else if isspace c then String " " (transform_decimal_and_space s')
      else String "?" EmptyString
  end.

(** Underscores may only stand between two digits; they are removed.
    [prev] is the previous character, [None] at the start. *)
Fixpoint remove_underscores (prev : option ascii) (s : string) : option string :=
  match s with
  | EmptyString =>
      match prev with
      | Some "_"%char => None
      | _ => Some EmptyString
      end
  | String c s' =>
      if Ascii.eqb c "_" then
        match prev with
        | Some p => if isdigit p then remove_underscores (Some c) s' else None
        | None => None
        end
      else
        match prev with
        | Some "_"%char =>
            if isdigit c
            then option_map (String c) (remove_underscores (Some c) s')
            else None
        | _ => option_map (String c) (remove_underscores (Some c) s')
        end
  end.

(** Reads the leading digits of [s] into the accumulator: the value,
    the number of digits read and the rest of the text. *)
Fixpoint read_digits (acc : N) (count : nat) (s : string) : N * nat * string :=
  match s with
  | String c s' =>
      if isdigit c then read_digits (acc * 10 + digit_value c)%N (S count) s'
      else (acc, count, s)
  | EmptyString => (acc, count, s)
  end.

Definition read_sign (s : string) : bool * string :=
  match s with
  | String "-" s' => (true, s')
  | String "+" s' => (false, s')
  | _ => (false, s)
  end.

Fixpoint lower (s : string) : string :=
  match s with
  | EmptyString => EmptyString
  | String c s' => String (tolower c) (lower s')
  end.

(** The exponent part: the text must be empty, or [e] or [E], an
    optional sign and at least one digit, up to the end. *)
Definition read_exponent (s : string) : option Z :=
  match s with
  | EmptyString => Some 0
  | String c s' =>
      if Ascii.eqb (tolower c) "e" then
        let '(neg, s1) := read_sign s' in
        match read_digits 0 0 s1 with
        | (_, O, _) => None
        | (n, _, EmptyString) => Some (if neg then - Z.of_N n else Z.of_N n)
        | _ => None
        end
      else None
  end.

(** A decimal literal: sign, digits, optional point and digits, at
    least one digit overall, optional exponent; nothing may follow. *)
Definition read_decimal (s : string) : option spec_float :=
  let '(neg, s0) := read_sign s in
  let '(ip, ni, s1) := read_digits 0 0 s0 in
  let '(m, nf, s2) :=
    match s1 with
    | String "." s1' =>
        let '(m, nf, s2) := read_digits ip 0 s1' in (m, nf, s2)
    | _ => (ip, O, s1)
    end in
  match (ni + nf)%nat with
  | O => None
  | _ =>
      match read_exponent s2 with
      | Some e => Some (float_of_decimal neg m (e - Z.of_nat nf))
      | None => None
      end
  end.

(** [inf], [infinity] and [nan], in any letter case, with an optional
    sign. *)
Definition read_inf_or_nan (s : string) : option spec_float :=
  let '(neg, s0) := read_sign s in
  let w := lower s0 in
  if String.eqb w "inf" || String.eqb w "infinity" then Some (S754_infinity neg)
  else if String.eqb w "nan" then Some S754_nan
  else None.

(** [float(s)]: [None] stands for [ValueError]. *)
Definition float_of_string (s : string) : option spec_float :=
  match remove_underscores None (transform_decimal_and_space s) with
  | None => None
  | Some t =>
      let u := rstrip_with c_isspace (lstrip_with c_isspace t) in
      match read_decimal u with
      | Some f => Some f
      | None => read_inf_or_nan u
      end
  end.

(** ** Exceptions and effects *)

(** What [requests] raises when no response arrives. *)
Inductive request_failure := ConnectionError | Timeout | OtherRequestError.

(** The interpolated parts of the message of [load_rows]:
    [sorted(req_headers)], [sorted(missing)] and [sorted(extra)]. *)
Record exit_message := {
  msg_expect : list string;
  msg_missing : list string;
  msg_extra : list string
}.

Inductive exn :=
| RequestException (k : request_failure)
| HTTPError (status : Z)
| JSONDecodeError
| AttributeError
| TypeError
| KeyError
| IndexError
| ValueError
| OverflowError
| SystemExit (msg : exit_message).

(** [isinstance(e, Exception)]: [SystemExit] derives from
    [BaseException] only. *)
Definition is_Exception (e : exn) : bool :=
  match e with SystemExit _ => false | _ => true end.

Inductive param := PStr (s : string) | PInt (n : Z) | PFloat (x : spec_float).

Record request := {
  url : string;
  params : list (string * param);
  timeout : Z
}.

(** The lines that [enrich_one] and [main] print, each with the values
    its f-string interpolates. *)
Inductive message :=
| GeoFound (city cc : string) (lat lon : option spec_float)
| GeoNotFound (city cc : string)
| WxFound (city : string) (temp wind : option spec_float)
| WxNotAvailable (city : string)
| FxFound (city cur : string) (rate : option spec_float) (amt : spec_float)
    (usd : option spec_float)
| FxNotAvailable (city : string)
| Wrote (n : nat) (path : string).

(** A Python value as [r.json()] returns it.  The keys of a [JDict]
    are distinct; [dict_lookup] reads the first binding of a key. *)
Inductive value :=
| JNull
| JBool (b : bool)
| JInt (n : Z)
| JFloat (x : spec_float)
| JStr (s : string)
| JList (l : list value)
| JDict (d : list (string * value)).

(** What is written to the output path: the object given to
    [json.dump] with the [pretty] flag, or the header and the rows
    given to the [csv.DictWriter]. *)
Inductive file_content :=
| JsonFile (pretty : bool) (obj : value)
| CsvFile (header : list string) (rows : list (list value)).

Inductive event :=
| Get (rq : request)
| Print (m : message)
| WriteFile (path : string) (content : file_content).

Inductive result (A : Type) :=
| Ok (a : A)
| Raise (e : exn).
Arguments Ok {A} a.
Arguments Raise {A} e.

(** A computation yields a value or an exception, and the events it
    caused, oldest first. *)
Definition M (A : Type) : Type := result A * list event.

Definition ret {A} (a : A) : M A := (Ok a, []).
Definition raise {A} (e : exn) : M A := (Raise e, []).
Definition emit (ev : event) : M unit := (Ok tt, [ev]).

Definition bind {A B} (m : M A) (k : A -> M B) : M B :=
  match m with
  | (Ok a, evs) => let '(r, evs') := k a in (r, evs ++ evs')
  | (Raise e, evs) => (Raise e, evs)
  end.

Notation "x <- m ;; k" := (bind m (fun x => k))
  (at level 100, m at next level, right associativity).
Notation "m ;;; k" := (bind m (fun _ => k))
  (at level 100, right associativity).

(** [try: body  except Exception: handler] *)
Definition try_except {A} (body : M A) (handler : exn -> M A) : M A :=
  match body with
  | (Raise e, evs) =>
      if is_Exception e
      then let '(r, evs') := handler e in (r, evs ++ evs')
      else (Raise e, evs)
  | ok => ok
  end.

Definition returns {A} (m : M A) (a : A) : Prop := fst m = Ok a.
Definition raises {A} (m : M A) (e : exn) : Prop := fst m = Raise e.
Definition events {A} (m : M A) : list event := snd m.

(** ** Operations on Python values *)

(** [bool(v)] *)
Definition truthy (v : value) : bool :=
  match v with
  | JNull => false
  | JBool b => b
  | JInt n => negb (n =? 0)
  | JFloat x => negb (float_eq x float0)
  | JStr s => negb (String.eqb s "")
  | JList l => match l with [] => false | _ => true end
  | JDict d => match d with [] => false | _ => true end
  end.

(** [a or b] *)
Definition py_or (a b : value) : value := if truthy a then a else b.

Definition is_None (v : value) : bool :=
  match v with JNull => true | _ => false end.

Definition dict_lookup (k : string) (d : list (string * value)) : option value :=
  match List.find (fun kv => String.eqb (fst kv) k) d with
  | Some kv => Some (snd kv)
  | None => None
  end.

(** [v.get(k)]: only a dict has the method. *)
Definition get (v : value) (k : string) : M value :=
  match v with
  | JDict d =>
      match dict_lookup k d with
      | Some x => ret x
      | None => ret JNull
      end
  | _ => raise AttributeError
  end.

(** [v[0]]: the first item of a list, the first character of a
    string; a dict from JSON has string keys only, so [0] is never a
    key; other values cannot be subscripted. *)
Definition index0 (v : value) : M value :=
  match v with
  | JList (x :: _) => ret x
  | JList [] => raise IndexError
  | JStr (String c _) => ret (JStr (String c EmptyString))
  | JStr EmptyString => raise IndexError
  | JDict _ => raise KeyError
  | _ => raise TypeError
  end.

(** [float(v)] *)
Definition py_float (v : value) : M spec_float :=
  match v with
  | JFloat x => ret x
  | JInt n =>
      match float_of_int n with
      | Some x => ret x
      | None => raise OverflowError
      end
  | JBool b => ret (if b then float1 else float0)
  | JStr s =>
      match float_of_string s with
      | Some x => ret x
      | None => raise ValueError
      end
  | _ => raise TypeError
  end.

(** ** The HTTP session *)

(** What the service answers: nothing (the call raises), or a status
    code and a body; the body is [None] when [r.json()] cannot decode
    it. *)
Inductive response :=
| NoResponse (k : request_failure)
| Response (status_code : Z) (body : option value).

(** The session as seen by one call of [enrich_one]: the answer to
    each request. *)
Definition Session : Type := request -> response.

Definition TIMEOUT : Z := 10.
Definition GEO_URL : string := "https://geocoding-api.open-meteo.com/v1/search".
Definition WEATHER_URL : string := "https://api.open-meteo.com/v1/forecast".
Definition FX_URL : string := "https://api.exchangerate.host/convert".

(** [session.get(url, params=params, timeout=timeout)] *)
Definition session_get (session : Session) (u : string)
    (ps : list (string * param)) (t : Z) : M response :=
  let rq := {| url := u; params := ps; timeout := t |} in
  emit (Get rq) ;;;
  match session rq with
  | NoResponse k => raise (RequestException k)
  | r => ret r
  end.

(** [r.raise_for_status()]: client and server error codes raise. *)
Definition raise_for_status (r : response) : M unit :=
  match r with
  | Response st _ =>
      if (400 <=? st) && (st <? 600) then raise (HTTPError st) else ret tt
  | NoResponse k => raise (RequestException k)
  end.

(** [r.json()] *)
Definition response_json (r : response) : M value :=
  match r with
  | Response _ (Some v) => ret v
  | Response _ None => raise JSONDecodeError
  | NoResponse k => raise (RequestException k)
  end.

(** ** The lookup clients *)

Definition geocode_city (city country_code : string) (session : Session)
  : M (option (gmap string spec_float)) :=
  let params :=
    [("name", PStr city); ("country", PStr country_code); ("count", PInt 1)] in
  try_except
    (r <- session_get session GEO_URL params TIMEOUT ;;
     raise_for_status r ;;;
     data <- response_json r ;;
     found <- get data "results" ;;
     let results := py_or found (JList []) in
     if negb (truthy results) then ret None else
     hit <- index0 results ;;
     lat <- get hit "latitude" ;;
     lon <- get hit "longitude" ;;
     if is_None lat || is_None lon then ret None else
     flat <- py_float lat ;;
     flon <- py_float lon ;;
     ret (Some {[ "lat" := flat; "lon" := flon ]}))
    (fun _ => ret None).

Definition get_current_weather (lat lon : spec_float) (session : Session)
  : M (option (gmap string spec_float)) :=
  let params :=
    [("latitude", PFloat lat); ("longitude", PFloat lon);
     ("current_weather", PStr "true")] in
  try_except
    (r <- session_get session WEATHER_URL params TIMEOUT ;;
     raise_for_status r ;;;
     data <- response_json r ;;
     found <- get data "current_weather" ;;
     let cw := py_or found (JDict []) in
     temp <- get cw "temperature" ;;
     wind <- get cw "windspeed" ;;
     if is_None temp || is_None wind then ret None else
     ftemp <- py_float temp ;;
     fwind <- py_float wind ;;
     ret (Some {[ "temperature_c" := ftemp; "wind_speed_mps" := fwind ]}))
    (fun _ => ret None).

Definition fx_to_usd (local_currency : string) (amount : spec_float)
    (session : Session) : M (option (gmap string spec_float)) :=
  let params :=
    [("from", PStr local_currency); ("to", PStr "USD");
     ("amount", PFloat amount)] in
  try_except
    (r <- session_get session FX_URL params TIMEOUT ;;
     raise_for_status r ;;;
     data <- response_json r ;;
     result <- get data "result" ;;
     found <- get data "info" ;;
     let info := py_or found (JDict []) in
     rate <- get info "rate" ;;
     if is_None result || is_None rate then ret None else
     frate <- py_float rate ;;
     fresult <- py_float result ;;
     ret (Some {[ "fx_rate_to_usd" := frate; "amount_usd" := fresult ]}))
    (fun _ => ret None).

(** ** The amount validator *)

Definition parse_amount (val : string) : M (option spec_float) :=
  try_except
    (amt <- py_float (JStr val) ;;
     if float_lt amt float0 then ret None else ret (Some amt))
    (fun _ => ret None).

(** ** Time stamps *)

(** The reading of [datetime.now(timezone.utc)]. *)
Record datetime := {
  year : nat;
  month : nat;
  day : nat;
  hour : nat;
  minute : nat;
  second : nat;
  microsecond : nat
}.

Fixpoint digits_from (fuel n : nat) (acc : string) : string :=
  match fuel with
  | O => acc
  | S fuel' =>
      let acc' := String (ascii_of_nat (48 + n mod 10)) acc in
      match (n / 10)%nat with
      | O => acc'
      | q => digits_from fuel' q acc'
      end
  end.

(** [str(n)] for a natural number. *)
Definition str_of_nat (n : nat) : string := digits_from (S n) n EmptyString.

Fixpoint zeros (k : nat) : string :=
  match k with
  | O => EmptyString
  | S k' => String "0" (zeros k')
  end.

(** The format [%0wd]. *)
Definition zfill (w n : nat) : string :=
  let s := str_of_nat n in (zeros (w - String.length s) ++ s)%string.

(** [d.isoformat(timespec="seconds")] for a time in UTC. *)
Definition isoformat_seconds (d : datetime) : string :=
  (zfill 4 (year d) ++ "-" ++ zfill 2 (month d) ++ "-" ++ zfill 2 (day d)
   ++ "T" ++ zfill 2 (hour d) ++ ":" ++ zfill 2 (minute d) ++ ":"
   ++ zfill 2 (second d) ++ "+00:00")%string.

Definition _utc_now_iso (now : datetime) : string :=
  replace "+00:00" "Z" (isoformat_seconds now).

(** ** The row enricher *)

Record EnrichedRow := {
  city : string;
  country_code : string;
  local_currency : string;
  amount_local : option spec_float;
  fx_rate_to_usd : option spec_float;
  amount_usd : option spec_float;
  latitude : option spec_float;
  longitude : option spec_float;
  temperature_c : option spec_float;
  wind_speed_mps : option spec_float;
  retrieved_at : string
}.

Definition set_latitude (v : option spec_float) (r : EnrichedRow) : EnrichedRow :=
  {| city := city r; country_code := country_code r;
     local_currency := local_currency r; amount_local := amount_local r;
     fx_rate_to_usd := fx_rate_to_usd r; amount_usd := amount_usd r;
     latitude := v; longitude := longitude r;
     temperature_c := temperature_c r; wind_speed_mps := wind_speed_mps r;
     retrieved_at := retrieved_at r |}.

Definition set_longitude (v : option spec_float) (r : EnrichedRow) : EnrichedRow :=
  {| city := city r; country_code := country_code r;
     local_currency := local_currency r; amount_local := amount_local r;
     fx_rate_to_usd := fx_rate_to_usd r; amount_usd := amount_usd r;
     latitude := latitude r; longitude := v;
     temperature_c := temperature_c r; wind_speed_mps := wind_speed_mps r;
     retrieved_at := retrieved_at r |}.

Definition set_temperature_c (v : option spec_float) (r : EnrichedRow) : EnrichedRow :=
  {| city := city r; country_code := country_code r;
     local_currency := local_currency r; amount_local := amount_local r;
     fx_rate_to_usd := fx_rate_to_usd r; amount_usd := amount_usd r;
     latitude := latitude r; longitude := longitude r;
     temperature_c := v; wind_speed_mps := wind_speed_mps r;
     retrieved_at := retrieved_at r |}.

Definition set_wind_speed_mps (v : option spec_float) (r : EnrichedRow) : EnrichedRow :=
  {| city := city r; country_code := country_code r;
     local_currency := local_currency r; amount_local := amount_local r;
     fx_rate_to_usd := fx_rate_to_usd r; amount_usd := amount_usd r;
     latitude := latitude r; longitude := longitude r;
     temperature_c := temperature_c r; wind_speed_mps := v;
     retrieved_at := retrieved_at r |}.

Definition set_fx_rate_to_usd (v : option spec_float) (r : EnrichedRow) : EnrichedRow :=
  {| city := city r; country_code := country_code r;
     local_currency := local_currency r; amount_local := amount_local r;
     fx_rate_to_usd := v; amount_usd := amount_usd r;
     latitude := latitude r; longitude := longitude r;
     temperature_c := temperature_c r; wind_speed_mps := wind_speed_mps r;
     retrieved_at := retrieved_at r |}.

Definition set_amount_usd (v : option spec_float) (r : EnrichedRow) : EnrichedRow :=
  {| city := city r; country_code := country_code r;
     local_currency := local_currency r; amount_local := amount_local r;
     fx_rate_to_usd := fx_rate_to_usd r; amount_usd := v;
     latitude := latitude r; longitude := longitude r;
     temperature_c := temperature_c r; wind_speed_mps := wind_speed_mps r;
     retrieved_at := retrieved_at r |}.

(** An input row: a key may be missing, and a present key may hold
    [None] (a short line read by [csv.DictReader]). *)
Abbreviation Row := (gmap string (option string)).

(** [(row.get(k) or "")] *)
Definition get_or_empty (row : Row) (k : string) : string :=
  match row !! k with
  | Some (Some s) => s
  | _ => EmptyString
  end.

(** [bool(d)] for an optional dict: [None] and the empty dict are
    false. *)
Definition dict_truthy (d : option (gmap string spec_float)) : bool :=
  match d with
  | Some m => negb (Nat.eqb (size m) 0)
  | None => false
  end.

(** [d[k]] *)
Definition getitem (d : option (gmap string spec_float)) (k : string)
  : M spec_float :=
  match d with
  | Some m =>
      match m !! k with
      | Some x => ret x
      | None => raise KeyError
      end
  | None => raise TypeError
  end.

Definition str_truthy (s : string) : bool := negb (String.eqb s "").

Definition print_if (verbose : bool) (m : message) : M unit :=
  if verbose then emit (Print m) else ret tt.

(** [EnrichedRow(city=.., country_code=.., local_currency=..,
    amount_local=.., retrieved_at=..)]: the fields not given take
    their default, [None]. *)
Definition new_EnrichedRow (city country_code local_currency : string)
    (amount_local : option spec_float) (retrieved_at : string) : EnrichedRow :=
  {| city := city; country_code := country_code;
     local_currency := local_currency; amount_local := amount_local;
     fx_rate_to_usd := None; amount_usd := None;
     latitude := None; longitude := None;
     temperature_c := None; wind_speed_mps := None;
     retrieved_at := retrieved_at |}.

(** The three blocks of [enrich_one], under its comments [Geocode],
    [Weather] and [FX]; each takes the record [out] built so far and
    returns it updated. *)
Definition geocode_block (city cc : string) (session : Session)
    (verbose : bool) (out : EnrichedRow) : M EnrichedRow :=
  geo <- geocode_city city cc session ;;
  if dict_truthy geo then
    lat <- getitem geo "lat" ;;
    let out := set_latitude (Some lat) out in
    lon <- getitem geo "lon" ;;
    let out := set_longitude (Some lon) out in
    print_if verbose (GeoFound city cc (latitude out) (longitude out)) ;;;
    ret out
  else
    print_if verbose (GeoNotFound city cc) ;;;
    ret out.

Definition weather_block (city : string) (session : Session)
    (verbose : bool) (out : EnrichedRow) : M EnrichedRow :=
  match latitude out, longitude out with
  | Some lat, Some lon =>
      weather <- get_current_weather lat lon session ;;
      if dict_truthy weather then
        temp <- getitem weather "temperature_c" ;;
        let out := set_temperature_c (Some temp) out in
        wind <- getitem weather "wind_speed_mps" ;;
        let out := set_wind_speed_mps (Some wind) out in
        print_if verbose
          (WxFound city (temperature_c out) (wind_speed_mps out)) ;;;
        ret out
      else
        print_if verbose (WxNotAvailable city) ;;;
        ret out
  | _, _ => ret out
  end.

Definition fx_block (city cur : string) (amt : option spec_float)
    (session : Session) (verbose : bool) (out : EnrichedRow) : M EnrichedRow :=
  match amt with
  | Some a =>
      if str_truthy cur then
        fx <- fx_to_usd cur a session ;;
        if dict_truthy fx then
          rate <- getitem fx "fx_rate_to_usd" ;;
          let out := set_fx_rate_to_usd (Some rate) out in
          usd <- getitem fx "amount_usd" ;;
          let out := set_amount_usd (Some usd) out in
          print_if verbose
            (FxFound city cur (fx_rate_to_usd out) a (amount_usd out)) ;;;
          ret out
        else
          print_if verbose (FxNotAvailable city) ;;;
          ret out
      else ret out
  | None => ret out
  end.

Definition enrich_one (row : Row) (session : Session) (verbose : bool)
    (now : datetime) : M EnrichedRow :=
  let city := strip (get_or_empty row "city") in
  let cc := strip (get_or_empty row "country_code") in
  let cur := strip (get_or_empty row "local_currency") in
  amt <- parse_amount (strip (get_or_empty row "amount")) ;;
  let out := new_EnrichedRow city cc cur amt (_utc_now_iso now) in
  out <- geocode_block city cc session verbose out ;;
  out <- weather_block city session verbose out ;;
  out <- fx_block city cur amt session verbose out ;;
  ret out.

(** ** The row parser *)

(** What [csv.DictReader] has read: the header ([None] for an empty
    file) and one mapping per data line.  Opening and tokenising the
    file is the work of the [csv] module and is taken as given. *)
Record DictReader := {
  fieldnames : option (list string);
  records : list Row
}.

Definition str_le (a b : string) : Prop := String.leb a b = true.

#[local] Instance str_le_dec (a b : string) : Decision (str_le a b) :=
  decide (String.leb a b = true).

(** [sorted(s)] for a set of strings. *)
Definition sorted (s : gset string) : list string :=
  merge_sort str_le (elements s).

Definition req_headers : gset string :=
  {[ "city"; "country_code"; "local_currency"; "amount" ]}.

(** [set(rdr.fieldnames or [])] *)
Definition header_set (rdr : DictReader) : gset string :=
  match fieldnames rdr with
  | Some names => list_to_set names
  | None => ∅
  end.

Definition load_rows (rdr : DictReader) : M (list Row) :=
  if bool_decide (header_set rdr ≠ req_headers) then
    let missing := req_headers ∖ header_set rdr in
    let extra := header_set rdr ∖ req_headers in
    raise (SystemExit {| msg_expect := sorted req_headers;
                         msg_missing := sorted missing;
                         msg_extra := sorted extra |})
  else ret (records rdr).

(** ** The writers *)

Definition of_float (x : option spec_float) : value :=
  match x with
  | Some f => JFloat f
  | None => JNull
  end.

(** [asdict(r)] *)
Definition asdict (r : EnrichedRow) : list (string * value) :=
  [("city", JStr (city r));
   ("country_code", JStr (country_code r));
   ("local_currency", JStr (local_currency r));
   ("amount_local", of_float (amount_local r));
   ("fx_rate_to_usd", of_float (fx_rate_to_usd r));
   ("amount_usd", of_float (amount_usd r));
   ("latitude", of_float (latitude r));
   ("longitude", of_float (longitude r));
   ("temperature_c", of_float (temperature_c r));
   ("wind_speed_mps", of_float (wind_speed_mps r));
   ("retrieved_at", JStr (retrieved_at r))].

Definition write_json (rows : list EnrichedRow) (path : string)
    (pretty : bool) : M unit :=
  let obj := JList (map (fun r => JDict (asdict r)) rows) in
  emit (WriteFile path (JsonFile pretty obj)).

(** [getattr(r, k)] *)
Definition getattr (r : EnrichedRow) (k : string) : M value :=
  match dict_lookup k (asdict r) with
  | Some v => ret v
  | None => raise AttributeError
  end.

Fixpoint mapM {A B} (f : A -> M B) (l : list A) : M (list B) :=
  match l with
  | [] => ret []
  | x :: l' => y <- f x ;; ys <- mapM f l' ;; ret (y :: ys)
  end.

Definition csv_headers : list string :=
  ["city"; "country_code"; "local_currency"; "amount_local";
   "fx_rate_to_usd"; "amount_usd"; "latitude"; "longitude";
   "temperature_c"; "wind_speed_mps"; "retrieved_at"].

Definition write_csv (rows : list EnrichedRow) (path : string) : M unit :=
  lines <- mapM (fun r => mapM (getattr r) csv_headers) rows ;;
  emit (WriteFile path (CsvFile csv_headers lines)).

(** ** The concurrency driver *)

Inductive output_format := FormatJson | FormatCsv.

Record Args := {
  input : string;
  output : string;
  format : output_format;
  pretty : bool;
  workers : Z;
  verbose : bool
}.

(** What [main] meets outside the program.  The tasks share no state
    but the session, so each task is run as a whole at its place in
    the completion order:
    - [cpu_count] is [os.cpu_count()];
    - [session_for i] is what the shared session answers to the task
      submitted for row [i], and [clock_for i] the clock it reads;
    - [completion_order] lists the positions of the futures in the
      order in which [as_completed] yields them. *)
Record World := {
  cpu_count : option Z;
  session_for : nat -> Session;
  clock_for : nat -> datetime;
  completion_order : list nat
}.

(** [args.workers if args.workers and args.workers > 0
     else max(4, (os.cpu_count() or 4))] *)
Definition decide_workers (args : Args) (w : World) : Z :=
  if negb (workers args =? 0) && (0 <? workers args) then workers args
  else Z.max 4 (match cpu_count w with
                | Some n => if n =? 0 then 4 else n
                | None => 4
                end).

(** A future is the pending call; [fut.result()] is its outcome. *)
Definition Future : Type := M EnrichedRow.

(** [ex.submit(enrich_one, row, session, args.verbose)] for row [i]. *)
Definition submit (w : World) (verbose : bool) (i : nat) (row : Row) : Future :=
  enrich_one row (session_for w i) verbose (clock_for w i).

(** [{ex.submit(...): i for i, row in enumerate(rows)}] *)
Definition make_fut_map (w : World) (verbose : bool) (rows : list Row)
  : list (Future * nat) :=
  imap (fun i row => (submit w verbose i row, i)) rows.

(** [as_completed(fut_map)]: the keys of the map, in completion
    order. *)
Definition as_completed (fut_map : list (Future * nat)) (order : list nat)
  : list Future :=
  omap (fun p => fst <$> fut_map !! p) order.

(** [for fut in futs: enriched.append(fut.result())] *)
Fixpoint collect (futs : list Future) (enriched : list EnrichedRow)
  : M (list EnrichedRow) :=
  match futs with
  | [] => ret enriched
  | fut :: rest => r <- fut ;; collect rest (enriched ++ [r])
  end.

Definition main (args : Args) (rdr : DictReader) (w : World) : M unit :=
  rows <- load_rows rdr ;;
  let workers := decide_workers args w in
  let fut_map := make_fut_map w (verbose args) rows in
  enriched <- collect (as_completed fut_map (completion_order w)) [] ;;
  (match format args with
   | FormatJson => write_json enriched (output args) (pretty args)
   | FormatCsv => write_csv enriched (output args)
   end) ;;;
  print_if (verbose args) (Wrote (length enriched) (output args)).

(** ** Statement helpers *)

(** The request that each client sends. *)
Definition geo_request (city country_code : string) : request :=
  {| url := GEO_URL;
     params := [("name", PStr city); ("country", PStr country_code);
                ("count", PInt 1)];
     timeout := TIMEOUT |}.

Definition weather_request (lat lon : spec_float) : request :=
  {| url := WEATHER_URL;
     params := [("latitude", PFloat lat); ("longitude", PFloat lon);
                ("current_weather", PStr "true")];
     timeout := TIMEOUT |}.

Definition fx_request (local_currency : string) (amount : spec_float) : request :=
  {| url := FX_URL;
     params := [("from", PStr local_currency); ("to", PStr "USD");
                ("amount", PFloat amount)];
     timeout := TIMEOUT |}.

(** The requests among the events, oldest first. *)
Fixpoint requests_of (evs : list event) : list request :=
  match evs with
  | [] => []
  | Get rq :: evs' => rq :: requests_of evs'
  | _ :: evs' => requests_of evs'
  end.

(** Some request of the event list went to the address [u]. *)
Definition called (u : string) (evs : list event) : Prop :=
  exists rq, In rq (requests_of evs) /\ url rq = u.

(** A computation that lets no [SystemExit] escape. *)
Definition safe {A} (m : M A) : Prop :=
  forall e, raises m e -> is_Exception e = true.

(** [c] does not occur in [s]. *)
Fixpoint avoids (c : ascii) (s : string) : Prop :=
  match s with
  | EmptyString => True
  | String d s' => d <> c /\ avoids c s'
  end.

Fixpoint all_space (s : string) : bool :=
  match s with
  | EmptyString => true
  | String c s' => isspace c && all_space s'
  end.

Definition first_char (s : string) : option ascii :=
  match s with
  | String c _ => Some c
  | EmptyString => None
  end.

Fixpoint last_char (s : string) : option ascii :=
  match s with
  | EmptyString => None
  | String c EmptyString => Some c
  | String _ s' => last_char s'
  end.

(** In words: [t] is [s] without its leading and trailing whitespace.
    [s] is some whitespace, then [t], then some whitespace, and [t]
    neither starts nor ends with whitespace. *)
Definition stripped_of (s t : string) : Prop :=
  exists l r,
    s = (l ++ t ++ r)%string
    /\ all_space l = true /\ all_space r = true
    /\ (forall c, first_char t = Some c -> isspace c = false)
    /\ (forall c, last_char t = Some c -> isspace c = false).

(** The file that holds the records [enriched], in the format that
    [args] asks for. *)
Definition file_of (args : Args) (enriched : list EnrichedRow) : file_content :=
  match format args with
  | FormatJson => JsonFile (pretty args) (JList (map (fun r => JDict (asdict r)) enriched))
  | FormatCsv => CsvFile csv_headers (map (fun r => map snd (asdict r)) enriched)
  end.

(** The number of records that reading the file back gives. *)
Definition records_in (c : file_content) : nat :=
  match c with
  | JsonFile _ (JList l) => length l
  | JsonFile _ _ => O
  | CsvFile _ rows => length rows
  end.

(** The record of row [p]: [r] is what the task submitted for that row
    returns. *)
Definition record_of (w : World) (verbose : bool) (rows : list Row)
    (p : nat) (r : EnrichedRow) : Prop :=
  exists row, rows !! p = Some row /\ returns (submit w verbose p row) r.

(** The value under key [k] of what a client returned, if any. *)
Definition field_of (d : option (gmap string spec_float)) (k : string)
  : option spec_float :=
  match d with
  | Some m => m !! k
  | None => None
  end.

(** No event of the list writes a file. *)
Definition no_write (evs : list event) : Prop :=
  Forall (fun ev => match ev with WriteFile _ _ => False | _ => True end) evs.

(** Two computations with the same value or exception and the same
    requests; they may differ in what they print. *)
Definition same_outcome {A} (m1 m2 : M A) : Prop :=
  fst m1 = fst m2 /\ requests_of (snd m1) = requests_of (snd m2).

(** A computation whose only events are requests. *)
Definition only_requests {A} (m : M A) : Prop :=
  snd m = map Get (requests_of (snd m)).

(** ** Sample inputs *)

(** A float literal of the test suite, read as Python reads it. *)
Definition float_lit (s : string) : spec_float :=
  match float_of_string s with
  | Some x => x
  | None => S754_nan
  end.

(** [sub in s] *)
Fixpoint contains (sub s : string) : bool :=
  String.prefix sub s
  || match s with
     | String _ s' => contains sub s'
     | EmptyString => false
     end.

(** The stub session of [test_enrich_one_happy_path]; its last case,
    an error for an unexpected address, is a failed call. *)
Definition fake_get : Session := fun rq =>
  if contains "geocoding-api" (url rq) then
    Response 200 (Some (JDict [("results",
      JList [JDict [("latitude", JFloat (float_lit "52.52"));
                    ("longitude", JFloat (float_lit "13.405"))]])]))
  else if contains "forecast" (url rq) then
    Response 200 (Some (JDict [("current_weather",
      JDict [("temperature", JFloat (float_lit "12.3"));
             ("windspeed", JFloat (float_lit "3.8"))])]))
  else if contains "exchangerate.host" (url rq) then
    Response 200 (Some (JDict [("result", JFloat (float_lit "96.19"));
                               ("info", JDict [("rate", JFloat (float_lit "1.07"))])]))
  else NoResponse OtherRequestError.

(** A session where every call times out. *)
Definition offline : Session := fun _ => NoResponse Timeout.

(** A session where only the conversion service fails, with a server
    error. *)
Definition fx_down : Session := fun rq =>
  if contains "exchangerate.host" (url rq) then Response 503 None
  else fake_get rq.

Definition berlin : Row :=
  {[ "city" := Some "Berlin"; "country_code" := Some "DE";
     "local_currency" := Some "EUR"; "amount" := Some "89.90" ]}.

Definition lima : Row :=
  {[ "city" := Some " Lima "; "country_code" := Some "PE";
     "local_currency" := None; "amount" := Some "abc" ]}.

Definition noon : datetime :=
  {| year := 2024; month := 3; day := 9; hour := 12; minute := 0;
     second := 5; microsecond := 4321 |}.

Definition good_file : DictReader :=
  {| fieldnames := Some ["amount"; "city"; "local_currency"; "country_code"];
     records := [berlin; lima] |}.

(** A header without the [amount] column and with a column [note]. *)
Definition bad_file : DictReader :=
  {| fieldnames := Some ["city"; "country_code"; "local_currency"; "note"];
     records := [berlin] |}.

Definition json_args : Args :=
  {| input := "expenses.csv"; output := "enriched.json";
     format := FormatJson; pretty := false; workers := 0; verbose := false |}.

(** Both tasks complete, the second row first. *)
Definition second_first : World :=
  {| cpu_count := Some 8;
     session_for := fun _ => fake_get;
     clock_for := fun _ => noon;
     completion_order := [1%nat; 0%nat] |}.

(** A session where only the geocoder fails, with "not found". *)
Definition geo_down : Session := fun rq =>
  if contains "geocoding-api" (url rq) then Response 404 None
  else fake_get rq.

(** The row [lima] written differently: other padding, the currency
    column missing, and a column that is not read. *)
Definition lima_padded : Row :=
  {[ "city" := Some "Lima"; "country_code" := Some " PE";
     "amount" := Some "abc "; "note" := Some "paid" ]}.

(** A valid header and no data line. *)
Definition empty_file : DictReader :=
  {| fieldnames := Some ["city"; "country_code"; "local_currency"; "amount"];
     records := [] |}.


(** No task ever completes: the world of a run without rows. *)
Definition idle : World :=
  {| cpu_count := Some 2;
     session_for := fun _ => offline;
     clock_for := fun _ => noon;
     completion_order := [] |}.

(** The message for [bad_file]. *)
Definition bad_file_message : exit_message :=
  {| msg_expect := ["amount"; "city"; "country_code"; "local_currency"];
     msg_missing := ["amount"];
     msg_extra := ["note"] |}.

(** The header of [good_file] in another order, with a column
    repeated. *)
Definition shuffled_file : DictReader :=
  {| fieldnames := Some ["city"; "amount"; "country_code"; "city";
                         "local_currency"];
     records := [berlin; lima] |}.

(** * Properties *)

(** ** The monad *)

Lemma bind_ok {A B} (m : M A) (k : A -> M B) a evs :
  m = (Ok a, evs) -> bind m k = (fst (k a), evs ++ snd (k a)).
Proof. intros ->. unfold bind. destruct (k a). reflexivity. Qed.

Lemma bind_ret {A B} (a : A) (k : A -> M B) : bind (ret a) k = k a.
Proof. unfold bind, ret. destruct (k a). reflexivity. Qed.

Lemma bind_returns_inv {A B} (m : M A) (k : A -> M B) b :
  returns (bind m k) b -> exists a, returns m a /\ returns (k a) b.
Proof.
  unfold returns, bind. destruct m as [[a|e] evs].
  - destruct (k a) as [r evs'] eqn:E. cbn. intros ->.
    exists a. rewrite E. split; reflexivity.
  - cbn. discriminate.
Qed.

Lemma bind_events_pure {A B} (m : M A) (k : A -> M B) :
  (forall a, snd (k a) = []) -> snd (bind m k) = snd m.
Proof.
  intros H. unfold bind. destruct m as [[a|e] evs]; cbn; [|reflexivity].
  specialize (H a). destruct (k a) as [r evs']. cbn in *. subst.
  apply app_nil_r.
Qed.

Lemma safe_ret {A} (a : A) : safe (ret a).
Proof. intros e. unfold raises. cbn. discriminate. Qed.

Lemma safe_raise {A} e : is_Exception e = true -> safe (@raise A e).
Proof. intros H e'. unfold raises. cbn. congruence. Qed.

Lemma safe_emit ev : safe (emit ev).
Proof. intros e. unfold raises. cbn. discriminate. Qed.

Lemma safe_bind {A B} (m : M A) (k : A -> M B) :
  safe m -> (forall a, safe (k a)) -> safe (bind m k).
Proof.
  intros Hm Hk e. unfold raises, bind. destruct m as [[a|e0] evs].
  - specialize (Hk a e). unfold raises in Hk.
    destruct (k a) as [r evs']. cbn in *. exact Hk.
  - cbn. intros [= <-]. apply Hm. reflexivity.
Qed.

Lemma safe_if {A} (c : bool) (m1 m2 : M A) :
  safe m1 -> safe m2 -> safe (if c then m1 else m2).
Proof. destruct c; auto. Qed.

Lemma safe_get v k : safe (get v k).
Proof.
  destruct v; try (apply safe_raise; reflexivity).
  cbn. destruct (dict_lookup k d); apply safe_ret.
Qed.

Lemma safe_index0 v : safe (index0 v).
Proof.
  destruct v as [| | | | s | l | d]; try (apply safe_raise; reflexivity).
  - destruct s; [apply safe_raise; reflexivity | apply safe_ret].
  - destruct l; [apply safe_raise; reflexivity | apply safe_ret].
Qed.

Lemma safe_py_float v : safe (py_float v).
Proof.
  destruct v; cbn; try (apply safe_raise; reflexivity); try apply safe_ret.
  - destruct (float_of_int n); [apply safe_ret | apply safe_raise; reflexivity].
  - destruct (float_of_string s); [apply safe_ret | apply safe_raise; reflexivity].
Qed.

Lemma safe_session_get session u ps t : safe (session_get session u ps t).
Proof.
  unfold session_get. apply safe_bind; [apply safe_emit|]. intros _.
  destruct (session _); [apply safe_raise; reflexivity | apply safe_ret].
Qed.

Lemma safe_raise_for_status r : safe (raise_for_status r).
Proof.
  destruct r; cbn; [apply safe_raise; reflexivity|].
  apply safe_if; [apply safe_raise; reflexivity | apply safe_ret].
Qed.

Lemma safe_response_json r : safe (response_json r).
Proof.
  destruct r as [|st [v|]]; cbn;
    first [apply safe_ret | apply safe_raise; reflexivity].
Qed.

Create HintDb safe.

#[local] Hint Resolve safe_ret safe_emit safe_get safe_index0 safe_py_float
  safe_session_get safe_raise_for_status safe_response_json : safe.

Ltac solve_safe :=
  repeat first
    [ apply safe_bind; [solve [auto with safe] | intros ?]
    | apply safe_if
    | solve [auto with safe] ].

(** A [try] block whose handler returns [None] returns: [None] when
    the body raised, what the body returned otherwise. *)
Lemma try_except_none {A} (body : M (option A)) :
  safe body ->
  exists r, try_except body (fun _ => ret None) = (Ok r, snd body)
            /\ (r = None \/ returns body r).
Proof.
  intros Hs. destruct body as [[a|e] evs] eqn:E; cbn.
  - exists a. split; [reflexivity|]. right. reflexivity.
  - rewrite (Hs e eq_refl). cbn. exists None.
    rewrite app_nil_r. split; [reflexivity | left; reflexivity].
Qed.

(** A computation that causes no event. *)
Lemma quiet_bind {A B} (m : M A) (k : A -> M B) :
  snd m = [] -> (forall a, snd (k a) = []) -> snd (bind m k) = [].
Proof. intros Hm Hk. rewrite bind_events_pure; assumption. Qed.

Lemma quiet_if {A} (c : bool) (m1 m2 : M A) :
  snd m1 = [] -> snd m2 = [] -> snd (if c then m1 else m2) = [].
Proof. destruct c; auto. Qed.

Lemma quiet_get v k : snd (get v k) = [].
Proof. destruct v; cbn; try reflexivity. destruct (dict_lookup k d); reflexivity. Qed.

Lemma quiet_index0 v : snd (index0 v) = [].
Proof. destruct v as [| | | | [|] | [|] | ]; reflexivity. Qed.

Lemma quiet_py_float v : snd (py_float v) = [].
Proof.
  destruct v; cbn; try reflexivity.
  - destruct (float_of_int n); reflexivity.
  - destruct (float_of_string s); reflexivity.
Qed.

Lemma quiet_raise_for_status r : snd (raise_for_status r) = [].
Proof. destruct r; cbn; [reflexivity|]. destruct (_ && _); reflexivity. Qed.

Lemma quiet_response_json r : snd (response_json r) = [].
Proof. destruct r as [|st [v|]]; reflexivity. Qed.

Create HintDb quiet.

#[local] Hint Resolve quiet_get quiet_index0 quiet_py_float
  quiet_raise_for_status quiet_response_json : quiet.

Ltac solve_quiet :=
  repeat first
    [ reflexivity
    | apply quiet_bind; [solve [auto with quiet] | intros ?]
    | apply quiet_if
    | solve [auto with quiet] ].

Lemma session_get_events session u ps t :
  snd (session_get session u ps t)
  = [Get {| url := u; params := ps; timeout := t |}].
Proof.
  unfold session_get, bind, emit.
  destruct (session _); reflexivity.
Qed.

Lemma returns_ret_inv {A} (a b : A) : returns (ret a) b -> a = b.
Proof. unfold returns. cbn. congruence. Qed.

Lemma returns_raise_inv {A} e (b : A) : returns (raise e) b -> False.
Proof. unfold returns. cbn. discriminate. Qed.

Ltac inv_returns :=
  repeat match goal with
  | H : returns (bind _ _) _ |- _ =>
      let a := fresh "v" in
      let Ha := fresh "Hv" in
      apply bind_returns_inv in H; destruct H as (a & Ha & H)
  | H : returns (if ?c then _ else _) _ |- _ => destruct c eqn:?
  | H : returns (ret _) _ |- _ => apply returns_ret_inv in H
  | H : returns (raise _) _ |- _ => destruct (returns_raise_inv _ _ H)
  end.

(** ** The lookup clients *)

(** Each client sends exactly one request, never raises, and returns
    [None] or a dict holding both of its keys. *)
Lemma geocode_city_cases city cc session :
  exists r, geocode_city city cc session = (Ok r, [Get (geo_request city cc)])
    /\ (r = None \/ exists a b, r = Some {[ "lat" := a; "lon" := b ]}).
Proof.
  unfold geocode_city.
  match goal with |- context [try_except ?b _] => set (body := b) end.
  assert (Hs : safe body) by (unfold body; solve_safe).
  assert (He : snd body = [Get (geo_request city cc)]).
  { unfold body. rewrite bind_events_pure.
    - apply session_get_events.
    - intros r. solve_quiet. }
  destruct (try_except_none body Hs) as (r & -> & Hr).
  exists r. rewrite He. split; [reflexivity|].
  destruct Hr as [-> | Hr]; [left; reflexivity|].
  destruct r as [d|]; [right | left; reflexivity].
  unfold body in Hr. inv_returns; try discriminate.
  injection Hr as <-. eauto.
Qed.

Lemma get_current_weather_cases lat lon session :
  exists r, get_current_weather lat lon session
            = (Ok r, [Get (weather_request lat lon)])
    /\ (r = None
        \/ exists a b, r = Some {[ "temperature_c" := a; "wind_speed_mps" := b ]}).
Proof.
  unfold get_current_weather.
  match goal with |- context [try_except ?b _] => set (body := b) end.
  assert (Hs : safe body) by (unfold body; solve_safe).
  assert (He : snd body = [Get (weather_request lat lon)]).
  { unfold body. rewrite bind_events_pure.
    - apply session_get_events.
    - intros r. solve_quiet. }
  destruct (try_except_none body Hs) as (r & -> & Hr).
  exists r. rewrite He. split; [reflexivity|].
  destruct Hr as [-> | Hr]; [left; reflexivity|].
  destruct r as [d|]; [right | left; reflexivity].
  unfold body in Hr. inv_returns; try discriminate.
  injection Hr as <-. eauto.
Qed.

Lemma fx_to_usd_cases cur amt session :
  exists r, fx_to_usd cur amt session = (Ok r, [Get (fx_request cur amt)])
    /\ (r = None
        \/ exists a b, r = Some {[ "fx_rate_to_usd" := a; "amount_usd" := b ]}).
Proof.
  unfold fx_to_usd.
  match goal with |- context [try_except ?b _] => set (body := b) end.
  assert (Hs : safe body) by (unfold body; solve_safe).
  assert (He : snd body = [Get (fx_request cur amt)]).
  { unfold body. rewrite bind_events_pure.
    - apply session_get_events.
    - intros r. solve_quiet. }
  destruct (try_except_none body Hs) as (r & -> & Hr).
  exists r. rewrite He. split; [reflexivity|].
  destruct Hr as [-> | Hr]; [left; reflexivity|].
  destruct r as [d|]; [right | left; reflexivity].
  unfold body in Hr. inv_returns; try discriminate.
  injection Hr as <-. eauto.
Qed.

Lemma parse_amount_cases val :
  exists r, parse_amount val = (Ok r, []).
Proof.
  unfold parse_amount.
  match goal with |- context [try_except ?b _] => set (body := b) end.
  assert (Hs : safe body) by (unfold body; solve_safe).
  assert (He : snd body = []).
  { unfold body. solve_quiet. }
  destruct (try_except_none body Hs) as (r & -> & _).
  exists r. rewrite He. reflexivity.
Qed.

(** ** The dicts returned by the clients *)

Lemma dict2_truthy (k1 k2 : string) (a b : spec_float) :
  k1 <> k2 -> dict_truthy (Some {[ k1 := a; k2 := b ]}) = true.
Proof.
  intros Hne. unfold dict_truthy.
  rewrite map_size_insert_None by (apply lookup_singleton_ne; congruence).
  reflexivity.
Qed.

Lemma dict2_getitem_1 (k1 k2 : string) (a b : spec_float) :
  getitem (Some {[ k1 := a; k2 := b ]}) k1 = ret a.
Proof. unfold getitem. rewrite lookup_insert_eq. reflexivity. Qed.

Lemma dict2_getitem_2 (k1 k2 : string) (a b : spec_float) :
  k1 <> k2 -> getitem (Some {[ k1 := a; k2 := b ]}) k2 = ret b.
Proof.
  intros Hne. unfold getitem.
  rewrite lookup_insert_ne by congruence.
  rewrite lookup_singleton_eq. reflexivity.
Qed.

Lemma print_if_requests verbose m : requests_of (snd (print_if verbose m)) = [].
Proof. destruct verbose; reflexivity. Qed.

Lemma print_if_ok verbose m :
  exists evs, print_if verbose m = (Ok tt, evs) /\ requests_of evs = [].
Proof. destruct verbose; eexists; split; reflexivity. Qed.

Lemma requests_of_app evs1 evs2 :
  requests_of (evs1 ++ evs2) = requests_of evs1 ++ requests_of evs2.
Proof.
  induction evs1 as [|[rq|m|p c] evs1 IH]; cbn; [reflexivity| |assumption..].
  f_equal. exact IH.
Qed.

(** ** The three blocks of [enrich_one] *)

Lemma geocode_block_spec city cc session verbose out :
  exists geo out' evs,
    geocode_city city cc session = (Ok geo, [Get (geo_request city cc)])
    /\ geocode_block city cc session verbose out = (Ok out', evs)
    /\ requests_of evs = [geo_request city cc]
    /\ ((geo = None /\ out' = out)
        \/ exists a b, geo = Some {[ "lat" := a; "lon" := b ]}
             /\ out' = set_longitude (Some b) (set_latitude (Some a) out)).
Proof.
  destruct (geocode_city_cases city cc session)
    as (geo & Hg & [-> | (a & b & ->)]);
    unfold geocode_block; rewrite (bind_ok _ _ _ _ Hg).
  - cbn [dict_truthy].
    destruct (print_if_ok verbose (GeoNotFound city cc)) as (evs & Hp & Hq).
    rewrite (bind_ok _ _ _ _ Hp). cbn [fst snd ret].
    eexists _, _, _. split; [exact Hg|]. split; [reflexivity|].
    split; [|left; split; reflexivity].
    cbn. rewrite app_nil_r, Hq. reflexivity.
  - rewrite dict2_truthy by discriminate.
    rewrite dict2_getitem_1, bind_ret.
    rewrite dict2_getitem_2 by discriminate. rewrite bind_ret.
    match goal with |- context [print_if verbose ?m] =>
      destruct (print_if_ok verbose m) as (evs & Hp & Hq) end.
    rewrite (bind_ok _ _ _ _ Hp). cbn [fst snd ret].
    eexists _, _, _. split; [exact Hg|]. split; [reflexivity|].
    split; [|right; eauto].
    cbn. rewrite app_nil_r, Hq. reflexivity.
Qed.

Lemma weather_block_spec city session verbose out :
  exists out' evs,
    weather_block city session verbose out = (Ok out', evs)
    /\ (((latitude out = None \/ longitude out = None)
         /\ out' = out /\ evs = [])
        \/ exists lat lon wx,
             latitude out = Some lat /\ longitude out = Some lon
             /\ get_current_weather lat lon session
                = (Ok wx, [Get (weather_request lat lon)])
             /\ requests_of evs = [weather_request lat lon]
             /\ ((wx = None /\ out' = out)
                 \/ exists t w,
                      wx = Some {[ "temperature_c" := t; "wind_speed_mps" := w ]}
                      /\ out' = set_wind_speed_mps (Some w)
                                  (set_temperature_c (Some t) out))).
Proof.
  unfold weather_block.
  destruct (latitude out) as [lat|] eqn:Hlat;
    [destruct (longitude out) as [lon|] eqn:Hlon|].
  2,3: eexists _, _; split; [reflexivity|]; left; auto.
  destruct (get_current_weather_cases lat lon session)
    as (wx & Hw & [-> | (t & w & ->)]);
    rewrite (bind_ok _ _ _ _ Hw).
  - cbn [dict_truthy].
    destruct (print_if_ok verbose (WxNotAvailable city)) as (evs & Hp & Hq).
    rewrite (bind_ok _ _ _ _ Hp). cbn [fst snd ret].
    eexists _, _. split; [reflexivity|]. right.
    exists lat, lon, None. repeat split; try assumption; [|left; auto].
    cbn. rewrite app_nil_r, Hq. reflexivity.
  - rewrite dict2_truthy by discriminate.
    rewrite dict2_getitem_1, bind_ret.
    rewrite dict2_getitem_2 by discriminate. rewrite bind_ret.
    match goal with |- context [print_if verbose ?m] =>
      destruct (print_if_ok verbose m) as (evs & Hp & Hq) end.
    rewrite (bind_ok _ _ _ _ Hp). cbn [fst snd ret].
    eexists _, _. split; [reflexivity|]. right.
    eexists lat, lon, _. repeat split; try eassumption; [|right; eauto].
    cbn. rewrite app_nil_r, Hq. reflexivity.
Qed.

Lemma fx_block_spec city cur amt session verbose out :
  exists out' evs,
    fx_block city cur amt session verbose out = (Ok out', evs)
    /\ (((amt = None \/ cur = EmptyString) /\ out' = out /\ evs = [])
        \/ exists a fx,
             amt = Some a /\ cur <> EmptyString
             /\ fx_to_usd cur a session = (Ok fx, [Get (fx_request cur a)])
             /\ requests_of evs = [fx_request cur a]
             /\ ((fx = None /\ out' = out)
                 \/ exists rate usd,
                      fx = Some {[ "fx_rate_to_usd" := rate; "amount_usd" := usd ]}
                      /\ out' = set_amount_usd (Some usd)
                                  (set_fx_rate_to_usd (Some rate) out))).
Proof.
  unfold fx_block.
  destruct amt as [a|]; [|eexists _, _; split; [reflexivity|]; left; auto].
  unfold str_truthy. destruct (String.eqb_spec cur "") as [->|Hcur]; cbn [negb].
  { eexists _, _; split; [reflexivity|]; left; auto. }
  destruct (fx_to_usd_cases cur a session)
    as (fx & Hf & [-> | (rate & usd & ->)]);
    rewrite (bind_ok _ _ _ _ Hf).
  - cbn [dict_truthy].
    destruct (print_if_ok verbose (FxNotAvailable city)) as (evs & Hp & Hq).
    rewrite (bind_ok _ _ _ _ Hp). cbn [fst snd ret].
    eexists _, _. split; [reflexivity|]. right.
    exists a, None. repeat split; try assumption; [|left; auto].
    cbn. rewrite app_nil_r, Hq. reflexivity.
  - rewrite dict2_truthy by discriminate.
    rewrite dict2_getitem_1, bind_ret.
    rewrite dict2_getitem_2 by discriminate. rewrite bind_ret.
    match goal with |- context [print_if verbose ?m] =>
      destruct (print_if_ok verbose m) as (evs & Hp & Hq) end.
    rewrite (bind_ok _ _ _ _ Hp). cbn [fst snd ret].
    eexists _, _. split; [reflexivity|]. right.
    eexists a, _. repeat split; try eassumption; [|right; eauto].
    cbn. rewrite app_nil_r, Hq. reflexivity.
Qed.

(** ** [enrich_one] as the sequence of its blocks *)

Lemma enrich_one_blocks row session verbose now :
  let city := strip (get_or_empty row "city") in
  let cc := strip (get_or_empty row "country_code") in
  let cur := strip (get_or_empty row "local_currency") in
  exists amt out1 out2 out3 evs1 evs2 evs3,
    parse_amount (strip (get_or_empty row "amount")) = (Ok amt, [])
    /\ geocode_block city cc session verbose
         (new_EnrichedRow city cc cur amt (_utc_now_iso now)) = (Ok out1, evs1)
    /\ weather_block city session verbose out1 = (Ok out2, evs2)
    /\ fx_block city cur amt session verbose out2 = (Ok out3, evs3)
    /\ enrich_one row session verbose now = (Ok out3, evs1 ++ evs2 ++ evs3).
Proof.
  intros city cc cur.
  destruct (parse_amount_cases (strip (get_or_empty row "amount"))) as [amt Hamt].
  destruct (geocode_block_spec city cc session verbose
              (new_EnrichedRow city cc cur amt (_utc_now_iso now)))
    as (geo & out1 & evs1 & _ & H1 & _).
  destruct (weather_block_spec city session verbose out1)
    as (out2 & evs2 & H2 & _).
  destruct (fx_block_spec city cur amt session verbose out2)
    as (out3 & evs3 & H3 & _).
  exists amt, out1, out2, out3, evs1, evs2, evs3.
  repeat (split; [assumption|]).
  unfold enrich_one. fold city cc cur.
  rewrite (bind_ok _ _ _ _ Hamt). cbn [fst snd app].
  rewrite (bind_ok _ _ _ _ H1), (bind_ok _ _ _ _ H2), (bind_ok _ _ _ _ H3).
  cbn. rewrite app_nil_r. reflexivity.
Qed.

(** Takes [enrich_one] apart: the outcome of each block and what it
    did to the record. *)
Ltac enrich_cases row session verbose now :=
  let amt := fresh "amt" in
  let out1 := fresh "out1" in
  let out2 := fresh "out2" in
  let out3 := fresh "out3" in
  let evs1 := fresh "evs1" in
  let evs2 := fresh "evs2" in
  let evs3 := fresh "evs3" in
  let Hamt := fresh "Hamt" in
  let H1 := fresh "H1" in
  let H2 := fresh "H2" in
  let H3 := fresh "H3" in
  let Hrun := fresh "Hrun" in
  destruct (enrich_one_blocks row session verbose now)
    as (amt & out1 & out2 & out3 & evs1 & evs2 & evs3
        & Hamt & H1 & H2 & H3 & Hrun);
  let geo := fresh "geo" in
  let Hgeo := fresh "Hgeo" in
  let Hq1 := fresh "Hq1" in
  let Hc1 := fresh "Hc1" in
  let Hc2 := fresh "Hc2" in
  let Hc3 := fresh "Hc3" in
  let o := fresh "o" in
  let e := fresh "e" in
  let E := fresh "E" in
  match type of H1 with
  | geocode_block ?c ?cc _ _ ?o0 = _ =>
      destruct (geocode_block_spec c cc session verbose o0)
        as (geo & o & e & Hgeo & E & Hq1 & Hc1);
      rewrite H1 in E; injection E as <- <-
  end;
  match type of H2 with
  | weather_block ?c _ _ _ = _ =>
      destruct (weather_block_spec c session verbose out1)
        as (o & e & E & Hc2);
      rewrite H2 in E; injection E as <- <-
  end;
  match type of H3 with
  | fx_block ?c ?cur _ _ _ _ = _ =>
      destruct (fx_block_spec c cur amt session verbose out2)
        as (o & e & E & Hc3);
      rewrite H3 in E; injection E as <- <-
  end.

(** Splits the three outcomes further, down to the final record. *)
Ltac block_cases Hc1 Hc2 Hc3 :=
  destruct Hc1 as [[? ->] | (? & ? & ? & ->)];
  destruct Hc2 as [(? & -> & ->)
                  | (? & ? & ? & ? & ? & ? & ?
                     & [[? ->] | (? & ? & ? & ->)])];
  destruct Hc3 as [(? & -> & ->)
                  | (? & ? & ? & ? & ? & ?
                     & [[? ->] | (? & ? & ? & ->)])];
  subst.

(** ** Geocoding is a hard dependency of the weather lookup *)

(** C1. When the geocode lookup of a row returns "not found",
    [enrich_one] returns a record whose latitude, longitude,
    temperature and wind speed are all absent, and no request goes to
    the weather service, whatever the session would answer. *)
Theorem geocode_not_found_skips_weather row session verbose now :
  returns (geocode_city (strip (get_or_empty row "city"))
             (strip (get_or_empty row "country_code")) session) None ->
  exists out, returns (enrich_one row session verbose now) out
    /\ latitude out = None /\ longitude out = None
    /\ temperature_c out = None /\ wind_speed_mps out = None
    /\ ~ called WEATHER_URL (events (enrich_one row session verbose now)).
Proof.
  intros Hnone. enrich_cases row session verbose now.
  unfold returns in Hnone. rewrite Hgeo in Hnone. injection Hnone as ->.
  destruct Hc1 as [[_ ->] | (a & b & [=] & _)].
  destruct Hc2 as [(_ & -> & ->) | (lat & lon & wx & [=] & _)].
  exists out3. unfold returns, events, called. rewrite Hrun. cbn [fst snd].
  rewrite !requests_of_app, Hq1. cbn [requests_of app].
  assert (Hfx : forall rq, In rq (requests_of evs3) -> url rq = FX_URL).
  { destruct Hc3 as [(_ & _ & ->) | (a & fx & _ & _ & _ & -> & _)]; cbn.
    - tauto.
    - intros rq [<- | []]. reflexivity. }
  split; [reflexivity|].
  assert (Hframe : latitude out3 = None /\ longitude out3 = None
                   /\ temperature_c out3 = None /\ wind_speed_mps out3 = None).
  { destruct Hc3 as [(_ & -> & _)
                    | (a & fx & _ & _ & _ & _ & [[_ ->] | (r & u & _ & ->)])];
      cbn; auto. }
  destruct Hframe as (-> & -> & -> & ->). repeat split.
  intros (rq & [<- | Hin] & Hu); [discriminate Hu|].
  apply Hfx in Hin. rewrite Hin in Hu. discriminate Hu.
Qed.

Lemma geocode_not_found_skips_weather_witness :
  returns (geocode_city (strip (get_or_empty berlin "city"))
             (strip (get_or_empty berlin "country_code")) offline) None
  /\ exists out, returns (enrich_one berlin offline true noon) out
       /\ latitude out = None /\ longitude out = None
       /\ temperature_c out = None /\ wind_speed_mps out = None
       /\ ~ called WEATHER_URL (events (enrich_one berlin offline true noon)).
Proof.
  split; [vm_compute; reflexivity|].
  apply (geocode_not_found_skips_weather berlin offline true noon).
  vm_compute. reflexivity.
Defined.

(** ** Failures are absorbed *)

(** The failures of a call, on the geocode client: no response, an
    error status, a body that is not JSON, and a body without results
    all give "not found". *)
Lemma geocode_city_failures city cc session :
  (forall k, session (geo_request city cc) = NoResponse k ->
     returns (geocode_city city cc session) None)
  /\ (forall st body, session (geo_request city cc) = Response st body ->
        400 <= st < 600 -> returns (geocode_city city cc session) None)
  /\ (forall st, session (geo_request city cc) = Response st None ->
        returns (geocode_city city cc session) None)
  /\ (forall st, session (geo_request city cc) = Response st (Some (JDict [])) ->
        returns (geocode_city city cc session) None)
  /\ (forall st,
        session (geo_request city cc)
        = Response st (Some (JDict [("results", JList [])])) ->
        returns (geocode_city city cc session) None)
  /\ (forall st lat,
        session (geo_request city cc)
        = Response st (Some (JDict [("results", JList [JDict [("latitude", lat)]])])) ->
        returns (geocode_city city cc session) None).
Proof.
  unfold returns, geocode_city, session_get, geo_request.
  repeat split; intros.
  - cbn. rewrite H. reflexivity.
  - cbn. rewrite H. cbn.
    replace ((400 <=? st) && (st <? 600)) with true
      by (symmetry; apply andb_true_iff; split; [apply Z.leb_le | apply Z.ltb_lt]; lia).
    reflexivity.
  - cbn. rewrite H. cbn. destruct ((400 <=? st) && (st <? 600)); reflexivity.
  - cbn. rewrite H. cbn. destruct ((400 <=? st) && (st <? 600)); reflexivity.
  - cbn. rewrite H. cbn. destruct ((400 <=? st) && (st <? 600)); reflexivity.
  - cbn. rewrite H. cbn. destruct ((400 <=? st) && (st <? 600)); [reflexivity|].
    cbn. destruct lat; reflexivity.
Qed.

Lemma get_current_weather_failures lat lon session :
  (forall k, session (weather_request lat lon) = NoResponse k ->
     returns (get_current_weather lat lon session) None)
  /\ (forall st body, session (weather_request lat lon) = Response st body ->
        400 <= st < 600 -> returns (get_current_weather lat lon session) None)
  /\ (forall st, session (weather_request lat lon) = Response st None ->
        returns (get_current_weather lat lon session) None)
  /\ (forall st, session (weather_request lat lon) = Response st (Some (JDict [])) ->
        returns (get_current_weather lat lon session) None)
  /\ (forall st temp,
        session (weather_request lat lon)
        = Response st (Some (JDict [("current_weather",
                                     JDict [("temperature", temp)])])) ->
        returns (get_current_weather lat lon session) None).
Proof.
  unfold returns, get_current_weather, session_get, weather_request.
  repeat split; intros.
  - cbn. rewrite H. reflexivity.
  - cbn. rewrite H. cbn.
    replace ((400 <=? st) && (st <? 600)) with true
      by (symmetry; apply andb_true_iff; split; [apply Z.leb_le | apply Z.ltb_lt]; lia).
    reflexivity.
  - cbn. rewrite H. cbn. destruct ((400 <=? st) && (st <? 600)); reflexivity.
  - cbn. rewrite H. cbn. destruct ((400 <=? st) && (st <? 600)); reflexivity.
  - cbn. rewrite H. cbn. destruct ((400 <=? st) && (st <? 600)); [reflexivity|].
    cbn. destruct temp; reflexivity.
Qed.

Lemma fx_to_usd_failures cur amt session :
  (forall k, session (fx_request cur amt) = NoResponse k ->
     returns (fx_to_usd cur amt session) None)
  /\ (forall st body, session (fx_request cur amt) = Response st body ->
        400 <= st < 600 -> returns (fx_to_usd cur amt session) None)
  /\ (forall st, session (fx_request cur amt) = Response st None ->
        returns (fx_to_usd cur amt session) None)
  /\ (forall st, session (fx_request cur amt) = Response st (Some (JDict [])) ->
        returns (fx_to_usd cur amt session) None)
  /\ (forall st res,
        session (fx_request cur amt)
        = Response st (Some (JDict [("result", res)])) ->
        returns (fx_to_usd cur amt session) None).
Proof.
  unfold returns, fx_to_usd, session_get, fx_request.
  repeat split; intros.
  - cbn. rewrite H. reflexivity.
  - cbn. rewrite H. cbn.
    replace ((400 <=? st) && (st <? 600)) with true
      by (symmetry; apply andb_true_iff; split; [apply Z.leb_le | apply Z.ltb_lt]; lia).
    reflexivity.
  - cbn. rewrite H. cbn. destruct ((400 <=? st) && (st <? 600)); reflexivity.
  - cbn. rewrite H. cbn. destruct ((400 <=? st) && (st <? 600)); reflexivity.
  - cbn. rewrite H. cbn. destruct ((400 <=? st) && (st <? 600)); [reflexivity|].
    cbn. destruct (is_None res); reflexivity.
Qed.

(** [enrich_one] returns a record, and a lookup that returned [None]
    leaves its fields absent. *)
Lemma enrich_one_absorbs row session verbose now :
  exists out,
    returns (enrich_one row session verbose now) out
    /\ (returns (geocode_city (strip (get_or_empty row "city"))
                   (strip (get_or_empty row "country_code")) session) None ->
        latitude out = None /\ longitude out = None)
    /\ (forall lat lon,
          latitude out = Some lat -> longitude out = Some lon ->
          returns (get_current_weather lat lon session) None ->
          temperature_c out = None /\ wind_speed_mps out = None)
    /\ (forall a,
          amount_local out = Some a ->
          returns (fx_to_usd (strip (get_or_empty row "local_currency")) a session)
            None ->
          fx_rate_to_usd out = None /\ amount_usd out = None).
Proof.
  enrich_cases row session verbose now.
  exists out3. unfold returns. rewrite Hrun, Hgeo. cbn [fst].
  split; [reflexivity|].
  block_cases Hc1 Hc2 Hc3; cbn in *;
    repeat match goal with
    | H : Some _ = Some _ |- _ => injection H as ->
    | H : _ = (Ok _, _) |- _ => rewrite H
    end;
    repeat split; intros; cbn in *; try congruence;
    repeat match goal with
    | H : Some _ = Some _ |- _ => injection H as <-
    | H : Some _ <> None |- _ => clear H
    | H : _ = (Ok _, _), G : context [fst _] |- _ => rewrite H in G; cbn in G
    end; try congruence; auto.
Qed.


(** C2. Whatever the row and whatever the session answers (no
    response, a time-out, an error status, a body that cannot be
    decoded or lacks the fields), the three clients return a value,
    and [enrich_one] returns a record and raises nothing; a lookup
    that failed leaves its fields absent. *)
Theorem enrich_one_never_raises row session verbose now :
  (forall city cc, exists r, returns (geocode_city city cc session) r)
  /\ (forall lat lon, exists r, returns (get_current_weather lat lon session) r)
  /\ (forall cur a, exists r, returns (fx_to_usd cur a session) r)
  /\ exists out,
       returns (enrich_one row session verbose now) out
       /\ (returns (geocode_city (strip (get_or_empty row "city"))
                      (strip (get_or_empty row "country_code")) session) None ->
           latitude out = None /\ longitude out = None)
       /\ (forall lat lon,
             latitude out = Some lat -> longitude out = Some lon ->
             returns (get_current_weather lat lon session) None ->
             temperature_c out = None /\ wind_speed_mps out = None)
       /\ (forall a,
             amount_local out = Some a ->
             returns (fx_to_usd (strip (get_or_empty row "local_currency")) a
                        session) None ->
             fx_rate_to_usd out = None /\ amount_usd out = None).
Proof.
  split; [|split; [|split]].
  - intros city cc.
    destruct (geocode_city_cases city cc session) as (r & Hr & _).
    exists r. unfold returns. rewrite Hr. reflexivity.
  - intros lat lon.
    destruct (get_current_weather_cases lat lon session) as (r & Hr & _).
    exists r. unfold returns. rewrite Hr. reflexivity.
  - intros cur a.
    destruct (fx_to_usd_cases cur a session) as (r & Hr & _).
    exists r. unfold returns. rewrite Hr. reflexivity.
  - apply enrich_one_absorbs.
Qed.

(** ** Paired fields *)

(** C3. In the record that [enrich_one] returns, latitude and
    longitude are both present or both absent, and so are temperature
    and wind speed, and the conversion rate and the converted
    amount. *)
Theorem lookup_fields_all_or_nothing row session verbose now :
  exists out,
    returns (enrich_one row session verbose now) out
    /\ (latitude out = None <-> longitude out = None)
    /\ (temperature_c out = None <-> wind_speed_mps out = None)
    /\ (fx_rate_to_usd out = None <-> amount_usd out = None).
Proof.
  enrich_cases row session verbose now.
  exists out3. unfold returns. rewrite Hrun. cbn [fst].
  split; [reflexivity|].
  block_cases Hc1 Hc2 Hc3; cbn in *; repeat split; congruence.
Qed.

(** ** The runs of the test suite and of the specification *)

(** [test_enrich_one_happy_path], with every field of the record. *)
Example enrich_one_happy_path :
  fst (enrich_one berlin fake_get false noon)
  = Ok {| city := "Berlin"; country_code := "DE"; local_currency := "EUR";
          amount_local := Some (float_lit "89.90");
          fx_rate_to_usd := Some (float_lit "1.07");
          amount_usd := Some (float_lit "96.19");
          latitude := Some (float_lit "52.52");
          longitude := Some (float_lit "13.405");
          temperature_c := Some (float_lit "12.3");
          wind_speed_mps := Some (float_lit "3.8");
          retrieved_at := "2024-03-09T12:00:05Z" |}.
Proof. vm_compute. reflexivity. Qed.

(** The conversion service fails: the amount stays, the converted
    values are absent. *)
Example enrich_one_fx_down :
  fst (enrich_one berlin fx_down false noon)
  = Ok {| city := "Berlin"; country_code := "DE"; local_currency := "EUR";
          amount_local := Some (float_lit "89.90");
          fx_rate_to_usd := None; amount_usd := None;
          latitude := Some (float_lit "52.52");
          longitude := Some (float_lit "13.405");
          temperature_c := Some (float_lit "12.3");
          wind_speed_mps := Some (float_lit "3.8");
          retrieved_at := "2024-03-09T12:00:05Z" |}.
Proof. vm_compute. reflexivity. Qed.

(** No lookup succeeds: the record still has its raw fields and its
    time stamp, and the only request is the one to the geocoder. *)
Example enrich_one_offline :
  enrich_one lima offline false noon
  = (Ok {| city := "Lima"; country_code := "PE"; local_currency := "";
           amount_local := None; fx_rate_to_usd := None; amount_usd := None;
           latitude := None; longitude := None;
           temperature_c := None; wind_speed_mps := None;
           retrieved_at := "2024-03-09T12:00:05Z" |},
     [Get (geo_request "Lima" "PE")]).
Proof. vm_compute. reflexivity. Qed.

(** ** What [enrich_one] copies and what it asks *)

(** The record keeps the stripped input fields, the parsed amount and
    the time stamp, and the requests are: one to the geocoder; then one
    to the weather service when the record has coordinates; then one to
    the conversion service when the amount is valid and the currency
    non-empty. *)
Lemma enrich_one_trace row session verbose now :
  exists out amt evs,
    enrich_one row session verbose now = (Ok out, evs)
    /\ parse_amount (strip (get_or_empty row "amount")) = (Ok amt, [])
    /\ city out = strip (get_or_empty row "city")
    /\ country_code out = strip (get_or_empty row "country_code")
    /\ local_currency out = strip (get_or_empty row "local_currency")
    /\ amount_local out = amt
    /\ retrieved_at out = _utc_now_iso now
    /\ requests_of evs
       = geo_request (city out) (country_code out)
         :: match latitude out, longitude out with
            | Some lat, Some lon => [weather_request lat lon]
            | _, _ => []
            end
         ++ match amt with
            | Some a =>
                if str_truthy (local_currency out)
                then [fx_request (local_currency out) a]
                else []
            | None => []
            end.
Proof.
  enrich_cases row session verbose now.
  exists out3, amt, (evs1 ++ evs2 ++ evs3).
  split; [exact Hrun|]. split; [exact Hamt|].
  rewrite !requests_of_app, Hq1.
  block_cases Hc1 Hc2 Hc3; cbn in *;
    repeat match goal with
    | H : Some _ = Some _ |- _ => injection H as <-
    | H : requests_of _ = _ |- _ => rewrite H
    | H : _ \/ _ |- _ => destruct H; subst
    end; cbn;
    repeat split; try reflexivity; try discriminate;
    unfold str_truthy;
    try match goal with
    | H : ?c <> EmptyString |- context [String.eqb ?c ""] =>
        destruct (String.eqb_spec c ""); [contradiction | reflexivity]
    | H : ?c = EmptyString |- context [String.eqb ?c ""] =>
        rewrite H; destruct amt; reflexivity
    end.
Qed.

Lemma returns_inj {A} (m : M A) a b : returns m a -> returns m b -> a = b.
Proof. unfold returns. congruence. Qed.

(** ** The currency conversion *)

(** C5. A request goes to the conversion service exactly when the
    parsed amount is valid and the stripped currency code is not
    empty; and when that lookup fails, the rate and the converted
    amount are absent while [amount_local] is still the parsed
    amount. *)
Theorem fx_lookup_gate row session verbose now :
  exists out amt,
    returns (enrich_one row session verbose now) out
    /\ returns (parse_amount (strip (get_or_empty row "amount"))) amt
    /\ amount_local out = amt
    /\ (called FX_URL (events (enrich_one row session verbose now))
        <-> amt <> None
            /\ strip (get_or_empty row "local_currency") <> EmptyString)
    /\ (forall a,
          amt = Some a ->
          strip (get_or_empty row "local_currency") <> EmptyString ->
          returns (fx_to_usd (strip (get_or_empty row "local_currency")) a
                     session) None ->
          fx_rate_to_usd out = None /\ amount_usd out = None
          /\ amount_local out = Some a).
Proof.
  destruct (enrich_one_trace row session verbose now)
    as (out & amt & evs & Hrun & Hamt & Hcity & Hcc & Hcur & Hal & Hts & Hreq).
  destruct (enrich_one_absorbs row session verbose now)
    as (out' & Hret & _ & _ & Hfx).
  assert (out' = out) as ->.
  { apply (returns_inj _ _ _ Hret). unfold returns. rewrite Hrun. reflexivity. }
  exists out, amt. unfold returns, events, called.
  rewrite Hrun, Hamt. cbn [fst snd].
  split; [reflexivity|]. split; [reflexivity|]. split; [exact Hal|].
  split.
  - rewrite Hreq, Hcur. unfold str_truthy. split.
    + intros (rq & Hin & Hu).
      destruct Hin as [<- | Hin]; [discriminate Hu|].
      apply in_app_or in Hin. destruct Hin as [Hin | Hin].
      * destruct (latitude out), (longitude out); try destruct Hin as [<- | []];
          try destruct Hin; discriminate Hu.
      * destruct amt; [|destruct Hin].
        destruct (String.eqb_spec (strip (get_or_empty row "local_currency")) "")
          as [E | E]; [destruct Hin|].
        split; [discriminate | exact E].
    + intros [Ha Hc]. destruct amt as [a|]; [|contradiction].
      destruct (String.eqb_spec (strip (get_or_empty row "local_currency")) "")
        as [E | E]; [contradiction|].
      exists (fx_request (strip (get_or_empty row "local_currency")) a).
      split; [|reflexivity].
      right. apply in_or_app. right. left. reflexivity.
  - intros a -> Hc Hnone.
    destruct (Hfx a Hal Hnone) as [-> ->]. auto.
Qed.

(** ** The amount validator *)

(** [parse_amount] in closed form: the float that [float()] reads,
    unless it compares below zero. *)
Lemma parse_amount_eq val :
  parse_amount val
  = ret (match float_of_string val with
         | Some x => if float_lt x float0 then None else Some x
         | None => None
         end).
Proof.
  unfold parse_amount, py_float.
  destruct (float_of_string val) as [x|]; [|reflexivity].
  rewrite bind_ret. destruct (float_lt x float0); reflexivity.
Qed.

(** The three cases of the test suite. *)
Example parse_amount_12_5 :
  parse_amount "12.5" = ret (Some (S754_finite false 7036874417766400 (-49))).
Proof. vm_compute. reflexivity. Qed.

Example parse_amount_minus_1 : parse_amount "-1" = ret None.
Proof. vm_compute. reflexivity. Qed.

Example parse_amount_abc : parse_amount "abc" = ret None.
Proof. vm_compute. reflexivity. Qed.

Lemma float_not_lt_0 x :
  float_lt x float0 = false -> is_nan x = true \/ float_le float0 x = true.
Proof. destruct x as [[|]|[|]| |[|] m e]; cbn; auto; discriminate. Qed.

(** What the guard [amt < 0] does ensure: a value that is returned
    does not compare below zero, so it is not negative or it is NaN;
    and a numeric text whose value is at least zero is returned. *)
Lemma parse_amount_sound val x :
  returns (parse_amount val) (Some x) ->
  float_of_string val = Some x
  /\ (is_nan x = true \/ float_le float0 x = true).
Proof.
  rewrite parse_amount_eq. intros H. apply returns_ret_inv in H.
  destruct (float_of_string val) as [y|]; [|discriminate].
  destruct (float_lt y float0) eqn:E; [discriminate|].
  injection H as ->. split; [reflexivity|]. apply float_not_lt_0, E.
Qed.

Lemma float_le_0_not_lt x : float_le float0 x = true -> float_lt x float0 = false.
Proof. destruct x as [[|]|[|]| |[|] m e]; cbn; auto; discriminate. Qed.

Lemma parse_amount_complete val x :
  float_of_string val = Some x -> float_le float0 x = true ->
  returns (parse_amount val) (Some x).
Proof.
  intros Hv Hx. rewrite parse_amount_eq, Hv, (float_le_0_not_lt x Hx).
  reflexivity.
Qed.

Lemma parse_amount_rejects val :
  (float_of_string val = None -> returns (parse_amount val) None)
  /\ (forall x, float_of_string val = Some x -> float_lt x float0 = true ->
        returns (parse_amount val) None).
Proof.
  split.
  - intros Hv. rewrite parse_amount_eq, Hv. reflexivity.
  - intros x Hv Hx. rewrite parse_amount_eq, Hv, Hx. reflexivity.
Qed.

(** C4. The text [nan] is read by [float()] as NaN, which does not
    compare below zero: [parse_amount] returns it, a value that is not
    absent and not at least zero. *)
Theorem parse_amount_accepts_nan :
  exists x, returns (parse_amount "nan") (Some x)
    /\ x = S754_nan /\ float_le float0 x = false.
Proof. exists S754_nan. repeat split. Qed.

(** A negative text too small for a float is read as the zero with a
    minus sign, and is returned. *)
Example parse_amount_underflow :
  parse_amount "-1e-999" = ret (Some (S754_zero true)).
Proof. vm_compute. reflexivity. Qed.

(** ** Time stamps *)

Lemma avoids_app c s t : avoids c s -> avoids c t -> avoids c (s ++ t)%string.
Proof.
  induction s as [|d s IH]; cbn; [auto|].
  intros [Hd Hs] Ht. split; auto.
Qed.

Lemma digit_avoids_plus k : (k < 10)%nat -> ascii_of_nat (48 + k) <> "+"%char.
Proof.
  intros Hk. do 10 (destruct k as [|k]; [discriminate|]). lia.
Qed.

Lemma digits_from_S fuel n acc :
  digits_from (S fuel) n acc
  = match (n / 10)%nat with
    | O => String (ascii_of_nat (48 + n mod 10)) acc
    | q => digits_from fuel q (String (ascii_of_nat (48 + n mod 10)) acc)
    end.
Proof. reflexivity. Qed.

Lemma digits_from_avoids fuel n acc :
  avoids "+" acc -> avoids "+" (digits_from fuel n acc).
Proof.
  revert n acc. induction fuel as [|fuel IH]; intros n acc Hacc; [exact Hacc|].
  rewrite digits_from_S.
  assert (Hd : avoids "+" (String (ascii_of_nat (48 + n mod 10)) acc)).
  { split; [|exact Hacc]. apply digit_avoids_plus.
    apply Nat.mod_upper_bound. discriminate. }
  destruct (n / 10)%nat; [exact Hd | apply IH, Hd].
Qed.

Lemma zeros_avoids k : avoids "+" (zeros k).
Proof. induction k; cbn; [exact I|]. split; [discriminate | assumption]. Qed.

Lemma zfill_avoids w n : avoids "+" (zfill w n).
Proof.
  unfold zfill. apply avoids_app; [apply zeros_avoids|].
  apply digits_from_avoids. exact I.
Qed.

Lemma digits_from_nonempty fuel n acc :
  digits_from (S fuel) n acc <> EmptyString.
Proof.
  revert n acc. induction fuel as [|fuel IH]; intros n acc;
    rewrite digits_from_S; destruct (n / 10)%nat.
  - discriminate.
  - intros H. cbn [digits_from] in H. discriminate H.
  - discriminate.
  - apply IH.
Qed.

Lemma zfill_nonempty w n : zfill w n <> EmptyString.
Proof.
  unfold zfill. destruct (zeros _); cbn; [|discriminate].
  apply digits_from_nonempty.
Qed.

(** Text without [+] is left as it is by the replacement of
    [+00:00]. *)
Lemma replace_app_avoids s t :
  avoids "+" s ->
  replace "+00:00" "Z" (s ++ t) = (s ++ replace "+00:00" "Z" t)%string.
Proof.
  unfold replace. induction s as [|c s IH]; [reflexivity|].
  intros [Hc Hs].
  change (String c s ++ t)%string with (String c (s ++ t)%string).
  change (String c s ++ replace_from "+00:00" "Z" 0 t)%string
    with (String c (s ++ replace_from "+00:00" "Z" 0 t)%string).
  cbn [replace_from String.prefix].
  destruct (ascii_dec "+" c) as [E|_]; [congruence|].
  rewrite (IH Hs). reflexivity.
Qed.

Lemma _utc_now_iso_shape now :
  _utc_now_iso now
  = (zfill 4 (year now) ++ "-" ++ zfill 2 (month now) ++ "-"
     ++ zfill 2 (day now) ++ "T" ++ zfill 2 (hour now) ++ ":"
     ++ zfill 2 (minute now) ++ ":" ++ zfill 2 (second now) ++ "Z")%string.
Proof.
  unfold _utc_now_iso, isoformat_seconds.
  repeat (rewrite replace_app_avoids;
          [f_equal | first [apply zfill_avoids | repeat split; discriminate]]).
  all: reflexivity.
Qed.

Example _utc_now_iso_noon : _utc_now_iso noon = "2024-03-09T12:00:05Z".
Proof. vm_compute. reflexivity. Qed.

(** C9. Whatever the lookups give, the record returned by
    [enrich_one] carries the time read when the record was built, as
    text: year, month, day, hour, minute and second of the UTC time
    followed by [Z], with no fraction of a second; it is never
    empty. *)
Theorem retrieved_at_always_set row session verbose now :
  exists out,
    returns (enrich_one row session verbose now) out
    /\ retrieved_at out = _utc_now_iso now
    /\ retrieved_at out <> EmptyString
    /\ retrieved_at out
       = (zfill 4 (year now) ++ "-" ++ zfill 2 (month now) ++ "-"
          ++ zfill 2 (day now) ++ "T" ++ zfill 2 (hour now) ++ ":"
          ++ zfill 2 (minute now) ++ ":" ++ zfill 2 (second now) ++ "Z")%string.
Proof.
  destruct (enrich_one_trace row session verbose now)
    as (out & amt & evs & Hrun & _ & _ & _ & _ & _ & Hts & _).
  exists out. unfold returns. rewrite Hrun, Hts. cbn [fst].
  split; [reflexivity|]. split; [reflexivity|].
  rewrite _utc_now_iso_shape. split; [|reflexivity].
  pose proof (zfill_nonempty 4 (year now)) as Hne.
  destruct (zfill 4 (year now)); [contradiction | discriminate].
Qed.

(** ** Stripping *)

Lemma lstrip_spec s :
  exists l, s = (l ++ lstrip_with isspace s)%string
    /\ all_space l = true
    /\ (forall c, first_char (lstrip_with isspace s) = Some c -> isspace c = false).
Proof.
  induction s as [|c s (l & Hs & Hl & Hf)].
  - exists EmptyString. repeat split. discriminate.
  - cbn [lstrip_with]. destruct (isspace c) eqn:Hc.
    + exists (String c l). split; [|split].
      * change (String c s = String c (l ++ lstrip_with isspace s)%string).
        f_equal. exact Hs.
      * cbn [all_space]. rewrite Hc, Hl. reflexivity.
      * exact Hf.
    + exists EmptyString. repeat split. cbn. congruence.
Qed.

Lemma rstrip_spec s :
  exists r, s = (rstrip_with isspace s ++ r)%string
    /\ all_space r = true
    /\ (forall c, last_char (rstrip_with isspace s) = Some c -> isspace c = false)
    /\ (forall c, first_char (rstrip_with isspace s) = Some c -> first_char s = Some c).
Proof.
  induction s as [|c s (r & Hs & Hr & Hlast & Hfirst)].
  - exists EmptyString. repeat split; discriminate.
  - cbn [rstrip_with]. destruct (rstrip_with isspace s) as [|d t] eqn:E.
    + change (s = r) in Hs. subst r. destruct (isspace c) eqn:Hc.
      * exists (String c s). split; [reflexivity|]. split.
        -- cbn [all_space]. rewrite Hc, Hr. reflexivity.
        -- split; discriminate.
      * exists s. split; [reflexivity|]. split; [exact Hr|].
        split; cbn; congruence.
    + exists r. split; [|split; [exact Hr | split; [exact Hlast|]]].
      * change (String c s = String c (String d t ++ r)%string).
        f_equal. exact Hs.
      * cbn. congruence.
Qed.

(** [strip] meets its description. *)
Lemma strip_spec s : stripped_of s (strip s).
Proof.
  unfold strip, stripped_of.
  destruct (lstrip_spec s) as (l & Hs & Hl & Hf).
  destruct (rstrip_spec (lstrip_with isspace s)) as (r & Ht & Hr & Hlast & Hfirst).
  exists l, r. repeat split; try assumption.
  - rewrite <- Ht. exact Hs.
  - intros c Hc. apply Hf, Hfirst, Hc.
Qed.

Example strip_lima : strip " Lima " = "Lima".
Proof. reflexivity. Qed.

(** ** Normalised input fields *)

(** C10. A field that is missing or holds [None] reads as the empty
    text; every field is stripped of leading and trailing whitespace
    before it is used: the record carries the stripped city, country
    code and currency, [parse_amount] receives the stripped amount,
    and the first request, to the geocoder, carries the stripped city
    and country code. *)
Theorem enrich_one_normalises_fields row session verbose now :
  (forall k, row !! k = None \/ row !! k = Some None ->
     get_or_empty row k = EmptyString)
  /\ (forall k s, row !! k = Some (Some s) -> get_or_empty row k = s)
  /\ (forall s, stripped_of s (strip s))
  /\ exists out evs rest,
       enrich_one row session verbose now = (Ok out, evs)
       /\ city out = strip (get_or_empty row "city")
       /\ country_code out = strip (get_or_empty row "country_code")
       /\ local_currency out = strip (get_or_empty row "local_currency")
       /\ returns (parse_amount (strip (get_or_empty row "amount")))
            (amount_local out)
       /\ requests_of evs
          = {| url := GEO_URL;
               params := [("name", PStr (strip (get_or_empty row "city")));
                          ("country",
                           PStr (strip (get_or_empty row "country_code")));
                          ("count", PInt 1)];
               timeout := TIMEOUT |} :: rest
       /\ ~ called GEO_URL (map Get rest).
Proof.
  split; [|split; [|split]].
  - intros k [H | H]; unfold get_or_empty; rewrite H; reflexivity.
  - intros k s H. unfold get_or_empty. rewrite H. reflexivity.
  - apply strip_spec.
  - destruct (enrich_one_trace row session verbose now)
      as (out & amt & evs & Hrun & Hamt & Hcity & Hcc & Hcur & Hal & Hts & Hreq).
    exists out, evs. eexists. split; [exact Hrun|].
    repeat (split; [assumption|]).
    split; [unfold returns; rewrite Hamt, Hal; reflexivity|].
    split; [rewrite Hreq, Hcity, Hcc; reflexivity|].
    intros (rq & Hin & Hu).
    assert (Hmap : forall l, requests_of (map Get l) = l).
    { induction l as [|x l IH]; cbn; [reflexivity | f_equal; exact IH]. }
    rewrite Hmap in Hin. apply in_app_or in Hin. destruct Hin as [Hin | Hin].
    + destruct (latitude out), (longitude out); try destruct Hin as [<- | []];
        try destruct Hin; discriminate Hu.
    + destruct amt; [|destruct Hin].
      destruct (str_truthy (local_currency out)); [|destruct Hin].
      destruct Hin as [<- | []]. discriminate Hu.
Qed.

(** ** The row parser *)

Lemma sorted_elem (s : gset string) (c : string) : c ∈ sorted s <-> c ∈ s.
Proof.
  unfold sorted. rewrite merge_sort_Permutation. apply elem_of_elements.
Qed.

Lemma load_rows_cases rdr :
  (header_set rdr = req_headers /\ load_rows rdr = (Ok (records rdr), []))
  \/ (header_set rdr <> req_headers
      /\ load_rows rdr
         = (Raise (SystemExit
              {| msg_expect := sorted req_headers;
                 msg_missing := sorted (req_headers ∖ header_set rdr);
                 msg_extra := sorted (header_set rdr ∖ req_headers) |}), [])).
Proof.
  unfold load_rows. case_bool_decide as H.
  - right. split; [exact H | reflexivity].
  - left. split; [|reflexivity].
    destruct (decide (header_set rdr = req_headers)); [assumption | contradiction].
Qed.

Lemma header_set_elem rdr c :
  c ∈ header_set rdr <-> c ∈ default [] (fieldnames rdr).
Proof.
  unfold header_set. destruct (fieldnames rdr) as [names|]; cbn.
  - apply elem_of_list_to_set.
  - split; intros H; [set_solver | inversion H].
Qed.

Lemma req_headers_elem c :
  c ∈ req_headers
  <-> c ∈ ["city"; "country_code"; "local_currency"; "amount"].
Proof.
  unfold req_headers.
  rewrite !elem_of_union, !elem_of_singleton, !elem_of_cons, elem_of_nil.
  tauto.
Qed.

(** C6. Loading succeeds exactly when the set of header names is the
    set of the four required names, in any order; otherwise the
    process exits with a message that lists the required names that
    are missing and the names that are not expected, and [main] stops
    there, before any request, output or print. *)
Theorem load_rows_schema args rdr w :
  ((exists rows, returns (load_rows rdr) rows) <-> header_set rdr = req_headers)
  /\ (header_set rdr = req_headers
      <-> forall c, c ∈ default [] (fieldnames rdr)
                    <-> c ∈ ["city"; "country_code"; "local_currency"; "amount"])
  /\ (header_set rdr <> req_headers ->
      exists msg,
        raises (load_rows rdr) (SystemExit msg)
        /\ is_Exception (SystemExit msg) = false
        /\ (forall c, c ∈ msg_missing msg
                      <-> c ∈ req_headers /\ c ∉ header_set rdr)
        /\ (forall c, c ∈ msg_extra msg
                      <-> c ∈ header_set rdr /\ c ∉ req_headers)
        /\ (msg_missing msg <> [] \/ msg_extra msg <> [])
        /\ main args rdr w = (Raise (SystemExit msg), [])).
Proof.
  split; [|split].
  - destruct (load_rows_cases rdr) as [[Hh Hl] | [Hh Hl]];
      unfold returns; rewrite Hl; cbn.
    + split; [intros _; exact Hh | intros _; eauto].
    + split; [intros [rows [=]] | intros Heq; contradiction].
  - split.
    + intros Hh c. rewrite <- header_set_elem, Hh. apply req_headers_elem.
    + intros H. apply set_eq. intros c.
      rewrite header_set_elem, H. symmetry. apply req_headers_elem.
  - intros Hne.
    destruct (load_rows_cases rdr) as [[Hh _] | [_ Hl]]; [contradiction|].
    eexists. unfold raises. rewrite Hl. cbn [fst].
    split; [reflexivity|]. split; [reflexivity|].
    cbn [msg_missing msg_extra].
    split; [intros c; rewrite sorted_elem; apply elem_of_difference|].
    split; [intros c; rewrite sorted_elem; apply elem_of_difference|].
    split.
    + destruct (decide (req_headers ∖ header_set rdr = ∅)) as [Hm|Hm].
      * right. intros Hx. apply Hne. apply set_eq. intros c. split.
        -- intros Hc. destruct (decide (c ∈ req_headers)) as [|Hn]; [assumption|].
           assert (Hin : c ∈ sorted (header_set rdr ∖ req_headers))
             by (apply sorted_elem, elem_of_difference; auto).
           rewrite Hx in Hin. inversion Hin.
        -- intros Hc. destruct (decide (c ∈ header_set rdr)) as [|Hn]; [assumption|].
           assert (Hin : c ∈ req_headers ∖ header_set rdr)
             by (apply elem_of_difference; auto).
           rewrite Hm in Hin. destruct (not_elem_of_empty (C:=gset string) c Hin).
      * left. intros Hx. apply Hm. apply set_eq. intros c. split.
        -- intros Hc. apply sorted_elem in Hc. rewrite Hx in Hc. inversion Hc.
        -- intros Hc. destruct (not_elem_of_empty (C:=gset string) c Hc).
    + unfold main. rewrite Hl. reflexivity.
Qed.

Lemma load_rows_schema_witness :
  header_set bad_file <> req_headers
  /\ exists msg,
       raises (load_rows bad_file) (SystemExit msg)
       /\ is_Exception (SystemExit msg) = false
       /\ (forall c, c ∈ msg_missing msg
                     <-> c ∈ req_headers /\ c ∉ header_set bad_file)
       /\ (forall c, c ∈ msg_extra msg
                     <-> c ∈ header_set bad_file /\ c ∉ req_headers)
       /\ (msg_missing msg <> [] \/ msg_extra msg <> [])
       /\ main json_args bad_file second_first = (Raise (SystemExit msg), []).
Proof.
  assert (H : header_set bad_file <> req_headers).
  { intros E. assert (Hin : "note" ∈ header_set bad_file)
      by (apply header_set_elem; cbn; set_solver).
    rewrite E in Hin. apply req_headers_elem in Hin. set_solver. }
  split; [exact H|].
  exact (proj2 (proj2 (load_rows_schema json_args bad_file second_first)) H).
Defined.

(** The header of the spec's example, without [amount]. *)
Example load_rows_bad_file :
  load_rows bad_file
  = raise (SystemExit
      {| msg_expect := ["amount"; "city"; "country_code"; "local_currency"];
         msg_missing := ["amount"];
         msg_extra := ["note"] |}).
Proof. vm_compute. reflexivity. Qed.

(** ** The writers *)

Lemma getattr_all r : mapM (getattr r) csv_headers = ret (map snd (asdict r)).
Proof. reflexivity. Qed.

Lemma mapM_ret {A B} (f : A -> M B) (g : A -> B) l :
  (forall x, f x = ret (g x)) -> mapM f l = ret (map g l).
Proof.
  intros H. induction l as [|x l IH]; [reflexivity|].
  cbn [mapM map]. rewrite H, bind_ret, IH, !bind_ret. reflexivity.
Qed.

Lemma write_csv_eq rows path :
  write_csv rows path
  = emit (WriteFile path
            (CsvFile csv_headers (map (fun r => map snd (asdict r)) rows))).
Proof.
  unfold write_csv. rewrite (mapM_ret _ _ _ getattr_all), bind_ret. reflexivity.
Qed.

Lemma write_file_of args enriched :
  match format args with
  | FormatJson => write_json enriched (output args) (pretty args)
  | FormatCsv => write_csv enriched (output args)
  end = emit (WriteFile (output args) (file_of args enriched)).
Proof.
  unfold file_of. destruct (format args); [reflexivity | apply write_csv_eq].
Qed.

Lemma records_in_file_of args enriched :
  records_in (file_of args enriched) = length enriched.
Proof.
  unfold file_of, records_in. destruct (format args); apply length_map.
Qed.

(** ** The concurrency driver *)

Lemma submit_returns w verbose p row : exists r, returns (submit w verbose p row) r.
Proof.
  unfold submit.
  destruct (enrich_one_trace row (session_for w p) verbose (clock_for w p))
    as (out & _ & evs & Hrun & _).
  exists out. unfold returns. rewrite Hrun. reflexivity.
Qed.

(** The loop appends the outcome of each future, in the order in
    which the futures come. *)
Lemma collect_spec futs :
  Forall (fun fut : Future => exists r, returns fut r) futs ->
  forall acc, exists rs,
    Forall2 returns futs rs
    /\ collect futs acc = (Ok (acc ++ rs), concat (map snd futs)).
Proof.
  induction 1 as [|fut futs [r Hr] _ IH]; intros acc.
  - exists []. split; [constructor|]. cbn. rewrite app_nil_r. reflexivity.
  - destruct (IH (acc ++ [r])) as (rs & Hrs & Hc).
    exists (r :: rs). split; [constructor; assumption|].
    cbn [collect map concat]. destruct fut as [res evs].
    unfold returns in Hr. cbn in Hr. subst res.
    rewrite (bind_ok _ _ r evs eq_refl), Hc. cbn [fst snd].
    rewrite <- app_assoc. reflexivity.
Qed.

(** [as_completed] yields, for each position of the completion order,
    the future submitted for the row at that position; the number
    stored with the future is not read. *)
Lemma as_completed_spec w verbose rows order :
  Forall (fun p => (p < length rows)%nat) order ->
  Forall2 (fun p fut => exists row, rows !! p = Some row
                                    /\ fut = submit w verbose p row)
    order (as_completed (make_fut_map w verbose rows) order).
Proof.
  unfold as_completed, make_fut_map.
  induction 1 as [|p order Hp _ IH]; [constructor|].
  destruct (lookup_lt_is_Some_2 rows p Hp) as [row Hrow].
  cbn [omap list_omap]. rewrite list_lookup_imap, Hrow. cbn.
  constructor; [eauto | exact IH].
Qed.

Lemma submitted_return w verbose (rows : list Row) order futs :
  Forall2 (fun p fut => exists row, rows !! p = Some row
                                    /\ fut = submit w verbose p row)
    order futs ->
  Forall (fun fut : Future => exists r, returns fut r) futs.
Proof.
  induction 1 as [|p fut order futs (row & _ & ->) _ IH];
    constructor; [apply submit_returns | exact IH].
Qed.

Lemma submitted_records w verbose (rows : list Row) order futs rs :
  Forall2 (fun p fut => exists row, rows !! p = Some row
                                    /\ fut = submit w verbose p row)
    order futs ->
  Forall2 returns futs rs ->
  Forall2 (record_of w verbose rows) order rs.
Proof.
  intros H. revert rs.
  induction H as [|p fut order futs (row & Hrow & ->) _ IH];
    intros rs Hrs; inversion Hrs; subst; constructor.
  - exists row. split; assumption.
  - apply IH. assumption.
Qed.

Lemma main_ok args rdr w :
  header_set rdr = req_headers ->
  Forall (fun p => (p < length (records rdr))%nat) (completion_order w) ->
  exists enriched evs,
    main args rdr w
    = (Ok tt, evs ++ WriteFile (output args) (file_of args enriched)
                     :: (if verbose args
                         then [Print (Wrote (length enriched) (output args))]
                         else []))
    /\ Forall2 (record_of w (verbose args) (records rdr))
         (completion_order w) enriched.
Proof.
  intros Hh Hord.
  destruct (load_rows_cases rdr) as [[_ Hl] | [Hne _]]; [|contradiction].
  pose proof (as_completed_spec w (verbose args) (records rdr) _ Hord) as Hfuts.
  set (futs := as_completed _ _) in *.
  destruct (collect_spec futs (submitted_return _ _ _ _ _ Hfuts) [])
    as (enriched & Hrs & Hc).
  exists enriched, (concat (map snd futs)). split.
  - unfold main. rewrite (bind_ok _ _ _ _ Hl). cbn [fst snd app].
    fold futs. rewrite (bind_ok _ _ _ _ Hc). cbn [fst snd app].
    rewrite write_file_of. unfold print_if.
    destruct (verbose args); reflexivity.
  - exact (submitted_records _ _ _ _ _ _ Hfuts Hrs).
Qed.

Lemma submit_fields w verbose p row r :
  returns (submit w verbose p row) r ->
  city r = strip (get_or_empty row "city")
  /\ country_code r = strip (get_or_empty row "country_code")
  /\ local_currency r = strip (get_or_empty row "local_currency")
  /\ retrieved_at r = _utc_now_iso (clock_for w p).
Proof.
  unfold submit. intros Hr.
  destruct (enrich_one_trace row (session_for w p) verbose (clock_for w p))
    as (out & amt & evs & Hrun & _ & Hcity & Hcc & Hcur & _ & Hts & _).
  assert (r = out) as ->.
  { apply (returns_inj _ _ _ Hr). unfold returns. rewrite Hrun. reflexivity. }
  auto.
Qed.

Lemma header_set_good_file : header_set good_file = req_headers.
Proof.
  apply set_eq. intros c. rewrite header_set_elem, req_headers_elem. cbn.
  rewrite !elem_of_cons, !elem_of_nil. tauto.
Qed.

(** C7. The records are collected in the order in which the tasks
    complete: the collected list follows the completion order
    position by position, and the row number stored with each future
    plays no part.  With two rows of which the second completes first,
    the output holds the second row's record first. *)
Theorem results_in_completion_order :
  (forall args rdr w,
     header_set rdr = req_headers ->
     Forall (fun p => (p < length (records rdr))%nat) (completion_order w) ->
     exists enriched evs evs',
       main args rdr w
       = (Ok tt, evs ++ WriteFile (output args) (file_of args enriched) :: evs')
       /\ Forall2 (record_of w (verbose args) (records rdr))
            (completion_order w) enriched)
  /\ (exists enriched evs evs',
        main json_args good_file second_first
        = (Ok tt, evs ++ WriteFile (output json_args)
                           (file_of json_args enriched) :: evs')
        /\ map city enriched = ["Lima"; "Berlin"]
        /\ map (fun row => strip (get_or_empty row "city")) (records good_file)
           = ["Berlin"; "Lima"]).
Proof.
  split.
  - intros args rdr w Hh Hord.
    destruct (main_ok args rdr w Hh Hord) as (enriched & evs & Hm & Hrec).
    eauto.
  - assert (Hord : Forall (fun p => (p < length (records good_file))%nat)
                     (completion_order second_first)).
    { repeat constructor. }
    destruct (main_ok json_args good_file second_first header_set_good_file Hord)
      as (enriched & evs & Hm & Hrec).
    exists enriched, evs. eexists. split; [exact Hm|]. split; [|reflexivity].
    cbn [completion_order second_first] in Hrec.
    inversion Hrec as [|p1 r1 o1 rs1 (row1 & Hrow1 & Hr1) Hrec1]; subst.
    inversion Hrec1 as [|p2 r2 o2 rs2 (row2 & Hrow2 & Hr2) Hrec2]; subst.
    inversion Hrec2; subst.
    injection Hrow1 as <-. injection Hrow2 as <-.
    apply submit_fields in Hr1, Hr2.
    destruct Hr1 as (Hc1 & _), Hr2 as (Hc2 & _).
    cbn [map]. rewrite Hc1, Hc2. reflexivity.
Qed.

Lemma results_in_completion_order_witness :
  exists enriched evs evs',
    main json_args good_file second_first
    = (Ok tt, evs ++ WriteFile (output json_args)
                       (file_of json_args enriched) :: evs')
    /\ Forall2 (record_of second_first (verbose json_args) (records good_file))
         (completion_order second_first) enriched.
Proof.
  apply (proj1 results_in_completion_order json_args good_file second_first).
  - exact header_set_good_file.
  - repeat constructor.
Defined.

(** ** One record per row *)

(** C8. When the header is valid and every submitted task completes
    once, the output holds exactly one record for each input row, in
    the completion order: as many records as rows, and for each row
    its record, which carries the row's stripped fields and the time
    stamp whatever the lookups gave. *)
Theorem one_record_per_row args rdr w :
  header_set rdr = req_headers ->
  Permutation (completion_order w) (seq 0 (length (records rdr))) ->
  exists enriched evs evs',
    main args rdr w
    = (Ok tt, evs ++ WriteFile (output args) (file_of args enriched) :: evs')
    /\ records_in (file_of args enriched) = length (records rdr)
    /\ length enriched = length (records rdr)
    /\ Forall2 (record_of w (verbose args) (records rdr))
         (completion_order w) enriched
    /\ (forall i row,
          records rdr !! i = Some row ->
          exists r, r ∈ enriched
            /\ returns (submit w (verbose args) i row) r
            /\ city r = strip (get_or_empty row "city")
            /\ country_code r = strip (get_or_empty row "country_code")
            /\ local_currency r = strip (get_or_empty row "local_currency")
            /\ retrieved_at r = _utc_now_iso (clock_for w i)).
Proof.
  intros Hh Hperm.
  assert (Hord : Forall (fun p => (p < length (records rdr))%nat)
                   (completion_order w)).
  { apply Forall_forall. intros p Hp. rewrite Hperm in Hp.
    apply elem_of_seq in Hp. lia. }
  destruct (main_ok args rdr w Hh Hord) as (enriched & evs & Hm & Hrec).
  assert (Hlen : length enriched = length (records rdr)).
  { rewrite <- (Forall2_length _ _ _ Hrec), Hperm. apply length_seq. }
  exists enriched, evs. eexists. split; [exact Hm|].
  split; [rewrite records_in_file_of; exact Hlen|].
  split; [exact Hlen|]. split; [exact Hrec|].
  intros i row Hrow.
  assert (Hi : i ∈ completion_order w).
  { rewrite Hperm. apply elem_of_seq. apply lookup_lt_Some in Hrow. lia. }
  apply list_elem_of_lookup in Hi. destruct Hi as [j Hj].
  destruct (Forall2_lookup_l _ _ _ _ _ Hrec Hj) as (r & Hr & row' & Hrow' & Hret).
  rewrite Hrow in Hrow'. injection Hrow' as <-.
  exists r. split; [eapply list_elem_of_lookup_2; exact Hr|].
  split; [exact Hret|]. apply (submit_fields _ _ _ _ _ Hret).
Qed.

Lemma one_record_per_row_witness :
  exists enriched evs evs',
    main json_args good_file second_first
    = (Ok tt, evs ++ WriteFile (output json_args)
                       (file_of json_args enriched) :: evs')
    /\ records_in (file_of json_args enriched) = length (records good_file)
    /\ length enriched = length (records good_file)
    /\ Forall2 (record_of second_first (verbose json_args) (records good_file))
         (completion_order second_first) enriched
    /\ (forall i row,
          records good_file !! i = Some row ->
          exists r, r ∈ enriched
            /\ returns (submit second_first (verbose json_args) i row) r
            /\ city r = strip (get_or_empty row "city")
            /\ country_code r = strip (get_or_empty row "country_code")
            /\ local_currency r = strip (get_or_empty row "local_currency")
            /\ retrieved_at r = _utc_now_iso (clock_for second_first i)).
Proof.
  apply (one_record_per_row json_args good_file second_first).
  - exact header_set_good_file.
  - cbn. apply perm_swap.
Defined.

(** * Further properties *)

(** ** When a client finds something *)

Lemma try_except_some_inv {A} (body : M (option A)) (x : A) :
  returns (try_except body (fun _ => ret None)) (Some x) -> returns body (Some x).
Proof.
  unfold returns, try_except. destruct body as [[r|e] evs]; cbn; [auto|].
  destruct (is_Exception e); cbn; discriminate.
Qed.

Lemma session_get_returns_inv session u ps t r :
  returns (session_get session u ps t) r ->
  exists st body, session {| url := u; params := ps; timeout := t |} = Response st body
                  /\ r = Response st body.
Proof.
  unfold returns, session_get, bind, emit.
  destruct (session _) as [k|st body] eqn:E; cbn; [discriminate|].
  intros [= <-]. eauto.
Qed.

Lemma raise_for_status_returns_inv st body u :
  returns (raise_for_status (Response st body)) u -> st < 400 \/ 600 <= st.
Proof.
  unfold returns. cbn. destruct (400 <=? st) eqn:E1; destruct (st <? 600) eqn:E2;
    cbn; try discriminate; intros _; lia.
Qed.

Lemma response_json_returns_inv st body data :
  returns (response_json (Response st body)) data -> body = Some data.
Proof. unfold returns. destruct body; cbn; congruence. Qed.

Lemma get_returns_inv v k x :
  returns (get v k) x ->
  exists d, v = JDict d
    /\ x = match dict_lookup k d with Some y => y | None => JNull end.
Proof.
  unfold returns. destruct v; cbn; try discriminate.
  intros H. exists d. split; [reflexivity|].
  destruct (dict_lookup k d); cbn in H; congruence.
Qed.

Lemma py_float_returns v a : returns (py_float v) a -> py_float v = ret a.
Proof.
  unfold returns. intros H. pose proof (quiet_py_float v) as Hq.
  destruct (py_float v) as [r evs]. cbn in *. subst. reflexivity.
Qed.

Lemma py_float_not_None v a : returns (py_float v) a -> is_None v = false.
Proof. destruct v; cbn; [discriminate|reflexivity..]. Qed.

Lemma status_ok st : st < 400 \/ 600 <= st -> (400 <=? st) && (st <? 600) = false.
Proof. intros H. apply andb_false_iff. rewrite Z.leb_gt, Z.ltb_ge. lia. Qed.


Ltac inv_lookup :=
  repeat (cbv zeta in *; match goal with
  | H : returns (bind _ _) _ |- _ =>
      apply bind_returns_inv in H; destruct H as (? & ? & H)
  | H : returns (if ?c then _ else _) _ |- _ => destruct c eqn:?
  | H : returns (ret _) _ |- _ => apply returns_ret_inv in H
  | H : returns (raise _) _ |- _ => destruct (returns_raise_inv _ _ H)
  | H : returns (session_get _ _ _ _) _ |- _ =>
      apply session_get_returns_inv in H; destruct H as (? & ? & ? & ?); subst
  | H : returns (raise_for_status (Response _ _)) _ |- _ =>
      apply raise_for_status_returns_inv in H
  | H : returns (response_json (Response _ _)) _ |- _ =>
      apply response_json_returns_inv in H; subst
  | H : returns (get _ _) _ |- _ =>
      apply get_returns_inv in H; destruct H as (? & ? & ?); simplify_eq
  end).


Lemma index0_dict_inv v h :
  returns (index0 v) (JDict h) -> exists rest, v = JList (JDict h :: rest).
Proof.
  unfold returns. destruct v as [| | | | [|c s] | [|x l] | d]; cbn; try discriminate.
  intros [= ->]. eauto.
Qed.

Lemma py_or_list_inv v x l : py_or v (JList []) = JList (x :: l) -> v = JList (x :: l).
Proof. unfold py_or. destruct (truthy v); [auto | discriminate]. Qed.

Lemma py_or_dict_inv v d : d <> [] -> py_or v (JDict []) = JDict d -> v = JDict d.
Proof. unfold py_or. destruct (truthy v); [auto | congruence]. Qed.

Lemma default_null_inv (o : option value) v :
  v <> JNull -> match o with Some y => y | None => JNull end = v -> o = Some v.
Proof. destruct o; congruence. Qed.


Lemma dict_lookup_nonempty k (d : list (string * value)) v :
  dict_lookup k d = Some v -> d <> [].
Proof. destruct d; [discriminate | congruence]. Qed.

Lemma session_get_ok session u ps t st body :
  session {| url := u; params := ps; timeout := t |} = Response st body ->
  session_get session u ps t
  = (Ok (Response st body), [Get {| url := u; params := ps; timeout := t |}]).
Proof. intros H. unfold session_get, bind, emit. rewrite H. reflexivity. Qed.

Lemma raise_for_status_ok st body :
  st < 400 \/ 600 <= st -> raise_for_status (Response st body) = ret tt.
Proof. intros H. unfold raise_for_status. rewrite (status_ok _ H). reflexivity. Qed.

Lemma get_dict k d v : dict_lookup k d = Some v -> get (JDict d) k = ret v.
Proof. intros H. unfold get. rewrite H. reflexivity. Qed.

Lemma py_or_truthy_dict d y : d <> [] -> py_or (JDict d) y = JDict d.
Proof. destruct d; [congruence | reflexivity]. Qed.

Lemma try_except_ok {A} (a : A) evs h : try_except (Ok a, evs) h = (Ok a, evs).
Proof. reflexivity. Qed.

(** Rewrites a successful run of a client body step by step. *)
Ltac run_lookup :=
  repeat first
    [ rewrite bind_ret
    | erewrite get_dict by eassumption
    | erewrite py_float_returns by eassumption
    | erewrite py_float_not_None by eassumption
    | rewrite raise_for_status_ok by assumption
    | progress cbn [response_json negb orb truthy py_or index0] ].

(** X1. [geocode_city] returns coordinates exactly when the answer has
    a status outside 400..599 and a JSON object whose [results] is a
    list starting with an object that holds a [latitude] and a
    [longitude] which [float()] converts; the coordinates are those of
    that first item, and the rest of the list is not read. *)
Theorem geocode_city_found_iff city cc session m :
  returns (geocode_city city cc session) (Some m) <->
  exists st d h rest la lo a b,
    session (geo_request city cc) = Response st (Some (JDict d))
    /\ (st < 400 \/ 600 <= st)
    /\ dict_lookup "results" d = Some (JList (JDict h :: rest))
    /\ dict_lookup "latitude" h = Some la
    /\ dict_lookup "longitude" h = Some lo
    /\ returns (py_float la) a /\ returns (py_float lo) b
    /\ m = {[ "lat" := a; "lon" := b ]}.
Proof.
  split.
  - intros H. apply try_except_some_inv in H. inv_lookup; try discriminate.
    match goal with H : returns (index0 _) _ |- _ =>
      apply index0_dict_inv in H; destruct H as [rest Hres];
      apply py_or_list_inv, default_null_inv in Hres; [|discriminate] end.
    destruct (dict_lookup "latitude" _) as [la|] eqn:Ela; [|discriminate].
    destruct (dict_lookup "longitude" _) as [lo|] eqn:Elo; [|discriminate].
    eexists _, _, _, _, _, _, _, _. eauto 10.
  - intros (st & d & h & rest & la & lo & a & b & Hs & Hst & Hres & Hla & Hlo
            & Ha & Hb & ->).
    unfold returns, geocode_city.
    rewrite (bind_ok _ _ _ _ (session_get_ok _ _ _ _ _ _ Hs)).
    run_lookup. reflexivity.
Qed.

(** X2. [get_current_weather] returns readings exactly when the answer
    has a status outside 400..599 and a JSON object whose
    [current_weather] is an object that holds a [temperature] and a
    [windspeed] which [float()] converts. *)
Theorem get_current_weather_found_iff lat lon session m :
  returns (get_current_weather lat lon session) (Some m) <->
  exists st d cw tv wv t w,
    session (weather_request lat lon) = Response st (Some (JDict d))
    /\ (st < 400 \/ 600 <= st)
    /\ dict_lookup "current_weather" d = Some (JDict cw)
    /\ dict_lookup "temperature" cw = Some tv
    /\ dict_lookup "windspeed" cw = Some wv
    /\ returns (py_float tv) t /\ returns (py_float wv) w
    /\ m = {[ "temperature_c" := t; "wind_speed_mps" := w ]}.
Proof.
  split.
  - intros H. apply try_except_some_inv in H. inv_lookup; try discriminate.
    match goal with
    | H1 : py_or ?v _ = JDict ?a, H2 : py_or ?v _ = JDict ?b |- _ =>
        rewrite H1 in H2; injection H2 as <-; rename H1 into Hcw
    end.
    destruct (dict_lookup "temperature" _) as [tv|] eqn:Etv; [|discriminate].
    destruct (dict_lookup "windspeed" _) as [wv|] eqn:Ewv; [|discriminate].
    apply py_or_dict_inv in Hcw; [|exact (dict_lookup_nonempty _ _ _ Etv)].
    apply default_null_inv in Hcw; [|discriminate].
    eexists _, _, _, _, _, _, _. eauto 10.
  - intros (st & d & cw & tv & wv & t & w & Hs & Hst & Hcw & Htv & Hwv
            & Ht & Hw & ->).
    unfold returns, get_current_weather.
    rewrite (bind_ok _ _ _ _ (session_get_ok _ _ _ _ _ _ Hs)).
    run_lookup.
    rewrite (py_or_truthy_dict _ _ (dict_lookup_nonempty _ _ _ Htv)).
    run_lookup. reflexivity.
Qed.

(** X3. [fx_to_usd] returns a conversion exactly when the answer has a
    status outside 400..599 and a JSON object that holds a [result]
    and an object [info] with a [rate], both converted by [float()];
    a result or a rate equal to zero counts as present. *)
Theorem fx_to_usd_found_iff cur amt session m :
  returns (fx_to_usd cur amt session) (Some m) <->
  exists st d res info rv rate usd,
    session (fx_request cur amt) = Response st (Some (JDict d))
    /\ (st < 400 \/ 600 <= st)
    /\ dict_lookup "result" d = Some res
    /\ dict_lookup "info" d = Some (JDict info)
    /\ dict_lookup "rate" info = Some rv
    /\ returns (py_float rv) rate /\ returns (py_float res) usd
    /\ m = {[ "fx_rate_to_usd" := rate; "amount_usd" := usd ]}.
Proof.
  split.
  - intros H. apply try_except_some_inv in H. inv_lookup; try discriminate.
    match goal with H : py_or _ _ = JDict _ |- _ => rename H into Hinfo end.
    destruct (dict_lookup "rate" _) as [rv|] eqn:Erv; [|discriminate].
    destruct (dict_lookup "result" _) as [res|] eqn:Eres; [|discriminate].
    apply py_or_dict_inv in Hinfo; [|exact (dict_lookup_nonempty _ _ _ Erv)].
    apply default_null_inv in Hinfo; [|discriminate].
    eexists _, _, _, _, _, _, _. eauto 10.
  - intros (st & d & res & info & rv & rate & usd & Hs & Hst & Hres & Hinfo & Hrv
            & Hrate & Husd & ->).
    unfold returns, fx_to_usd.
    rewrite (bind_ok _ _ _ _ (session_get_ok _ _ _ _ _ _ Hs)).
    run_lookup.
    rewrite (py_or_truthy_dict _ _ (dict_lookup_nonempty _ _ _ Hrv)).
    run_lookup. reflexivity.
Qed.

(** ** One request per lookup *)

(** X4. Each client sends exactly one request for one call, whatever
    the answer and also when the lookup fails: there is no retry.
    The request goes to the client's address with the time-out of 10
    seconds, and the geocoder is asked for one match. *)
Theorem clients_send_one_request session :
  (forall city cc,
     events (geocode_city city cc session)
     = [Get {| url := GEO_URL;
               params := [("name", PStr city); ("country", PStr cc);
                          ("count", PInt 1)];
               timeout := 10 |}])
  /\ (forall lat lon,
        events (get_current_weather lat lon session)
        = [Get {| url := WEATHER_URL;
                  params := [("latitude", PFloat lat); ("longitude", PFloat lon);
                             ("current_weather", PStr "true")];
                  timeout := 10 |}])
  /\ (forall cur amt,
        events (fx_to_usd cur amt session)
        = [Get {| url := FX_URL;
                  params := [("from", PStr cur); ("to", PStr "USD");
                             ("amount", PFloat amt)];
                  timeout := 10 |}]).
Proof.
  unfold events. split; [|split].
  - intros c cc.
    destruct (geocode_city_cases c cc session) as (r & -> & _). reflexivity.
  - intros lat lon.
    destruct (get_current_weather_cases lat lon session) as (r & -> & _).
    reflexivity.
  - intros cur amt.
    destruct (fx_to_usd_cases cur amt session) as (r & -> & _). reflexivity.
Qed.

(** ** The amount validator, in general *)

(** X5. [parse_amount] never raises and has no effect.  A value it
    returns is the float that [float()] reads from the text, and that
    float is NaN or at least zero; it returns [None] only for a text
    that [float()] rejects or reads as a float below zero. *)
Theorem parse_amount_total_and_sign val :
  exists r,
    parse_amount val = (Ok r, [])
    /\ (forall x, r = Some x ->
          float_of_string val = Some x
          /\ (is_nan x = true \/ float_le float0 x = true))
    /\ (r = None ->
          float_of_string val = None
          \/ exists x, float_of_string val = Some x /\ float_lt x float0 = true).
Proof.
  rewrite parse_amount_eq. eexists. split; [reflexivity|].
  destruct (float_of_string val) as [y|]; [|split; [discriminate | auto]].
  destruct (float_lt y float0) eqn:E; split; try discriminate; eauto.
  intros x [= ->]. split; [reflexivity | apply float_not_lt_0, E].
Qed.

(** ** The record in terms of the lookups *)

Lemma field_of_1 (k1 k2 : string) (a b : spec_float) :
  field_of (Some {[ k1 := a; k2 := b ]}) k1 = Some a.
Proof. cbn. apply lookup_insert_eq. Qed.

Lemma field_of_2 (k1 k2 : string) (a b : spec_float) :
  k1 <> k2 -> field_of (Some {[ k1 := a; k2 := b ]}) k2 = Some b.
Proof.
  intros Hne. cbn. rewrite lookup_insert_ne by congruence.
  apply lookup_singleton_eq.
Qed.

(** Every looked-up field of the record is the value under its key in
    what the client returned, or absent when the client was not
    called or returned [None]. *)
Lemma enrich_one_fields row session verbose now :
  exists out geo,
    returns (enrich_one row session verbose now) out
    /\ returns (geocode_city (strip (get_or_empty row "city"))
                  (strip (get_or_empty row "country_code")) session) geo
    /\ latitude out = field_of geo "lat"
    /\ longitude out = field_of geo "lon"
    /\ (geo = None -> temperature_c out = None /\ wind_speed_mps out = None)
    /\ (forall a b, latitude out = Some a -> longitude out = Some b ->
          exists wx, returns (get_current_weather a b session) wx
            /\ temperature_c out = field_of wx "temperature_c"
            /\ wind_speed_mps out = field_of wx "wind_speed_mps")
    /\ (amount_local out = None \/ local_currency out = EmptyString ->
          fx_rate_to_usd out = None /\ amount_usd out = None)
    /\ (forall a, amount_local out = Some a -> local_currency out <> EmptyString ->
          exists fx, returns (fx_to_usd (local_currency out) a session) fx
            /\ fx_rate_to_usd out = field_of fx "fx_rate_to_usd"
            /\ amount_usd out = field_of fx "amount_usd").
Proof.
  enrich_cases row session verbose now.
  exists out3, geo. unfold returns. rewrite Hrun, Hgeo. cbn [fst].
  split; [reflexivity|]. split; [reflexivity|].
  block_cases Hc1 Hc2 Hc3;
    cbn [latitude longitude temperature_c wind_speed_mps fx_rate_to_usd
         amount_usd amount_local local_currency new_EnrichedRow
         set_latitude set_longitude set_temperature_c set_wind_speed_mps
         set_fx_rate_to_usd set_amount_usd] in *;
    rewrite ?field_of_1, ?field_of_2 by discriminate.
  all: try (exfalso; match goal with
            | H : Some _ = None \/ Some _ = None |- _ => destruct H; discriminate
            end).
  all: repeat split; try reflexivity; try congruence; intros.
  all: try (match goal with H : _ \/ _ |- _ => destruct H end); try congruence.
  all: repeat match goal with
       | H : Some _ = Some _ |- _ => injection H as <-
       end.
  all: try (eexists; split; [match goal with H : _ = (Ok _, _) |- _ => rewrite H; reflexivity end|];
            rewrite ?field_of_1, ?field_of_2 by discriminate; split; reflexivity).
Qed.

(** ** What a lookup that succeeds leaves in the record *)

(** X6. A request goes to the weather service exactly when the
    geocode lookup found something; the coordinates it returned are
    then the latitude and longitude of the record, and the weather
    request carries them. *)
Theorem enrich_one_geocode_found row session verbose now :
  exists out,
    returns (enrich_one row session verbose now) out
    /\ (called WEATHER_URL (events (enrich_one row session verbose now))
        <-> exists m,
              returns (geocode_city (strip (get_or_empty row "city"))
                         (strip (get_or_empty row "country_code")) session)
                (Some m))
    /\ (forall a b,
          returns (geocode_city (strip (get_or_empty row "city"))
                     (strip (get_or_empty row "country_code")) session)
            (Some {[ "lat" := a; "lon" := b ]}) ->
          latitude out = Some a /\ longitude out = Some b
          /\ In (weather_request a b)
               (requests_of (events (enrich_one row session verbose now)))).
Proof.
  destruct (enrich_one_trace row session verbose now)
    as (out & amt & evs & Hrun & _ & Hcity & Hcc & _ & _ & _ & Hreq).
  destruct (enrich_one_fields row session verbose now)
    as (out' & geo & Hret & Hgeo & Hlat & Hlon & _).
  assert (out' = out) as ->.
  { apply (returns_inj _ _ _ Hret). unfold returns. rewrite Hrun. reflexivity. }
  exists out. split; [exact Hret|].
  unfold events, called. rewrite Hrun. cbn [snd]. rewrite Hreq.
  destruct (geocode_city_cases (strip (get_or_empty row "city"))
              (strip (get_or_empty row "country_code")) session)
    as (geo' & Hg & Hshape).
  assert (geo' = geo) as ->.
  { apply (returns_inj _ _ _ (f_equal fst Hg) Hgeo). }
  destruct Hshape as [-> | (a & b & ->)].
  - cbn in Hlat, Hlon. rewrite Hlat, Hlon. split.
    + split.
      * intros (rq & [<- | Hin] & Hu); [discriminate Hu|].
        cbn in Hin. destruct amt; [|destruct Hin].
        destruct (str_truthy (local_currency out)); [|destruct Hin].
        destruct Hin as [<- | []]. discriminate Hu.
      * intros (m & Hm). pose proof (returns_inj _ _ _ Hm Hgeo). discriminate.
    + intros a b Hm. pose proof (returns_inj _ _ _ Hm Hgeo). discriminate.
  - rewrite field_of_1 in Hlat. rewrite field_of_2 in Hlon by discriminate.
    rewrite Hlat, Hlon. split.
    + split; [eauto|]. intros _. exists (weather_request a b).
      split; [right; left; reflexivity | reflexivity].
    + intros a' b' Hm. pose proof (returns_inj _ _ _ Hm Hgeo) as E.
      pose proof (f_equal (fun o => field_of o "lat") E) as Ea.
      pose proof (f_equal (fun o => field_of o "lon") E) as Eb.
      cbv beta in Ea, Eb. rewrite !field_of_1 in Ea.
      rewrite !field_of_2 in Eb by discriminate.
      injection Ea as ->. injection Eb as ->.
      split; [reflexivity|]. split; [reflexivity|]. right. left. reflexivity.
Qed.

(** X7. When the record has coordinates and the weather lookup for
    them returns readings, the record carries exactly those
    readings. *)
Theorem enrich_one_weather_found row session verbose now :
  exists out,
    returns (enrich_one row session verbose now) out
    /\ forall a b t w,
         latitude out = Some a -> longitude out = Some b ->
         returns (get_current_weather a b session)
           (Some {[ "temperature_c" := t; "wind_speed_mps" := w ]}) ->
         temperature_c out = Some t /\ wind_speed_mps out = Some w.
Proof.
  destruct (enrich_one_fields row session verbose now)
    as (out & geo & Hret & _ & _ & _ & _ & Hwx & _).
  exists out. split; [exact Hret|].
  intros a b t w Ha Hb Hm.
  destruct (Hwx a b Ha Hb) as (wx & Hr & -> & ->).
  rewrite (returns_inj _ _ _ Hr Hm).
  rewrite field_of_1. rewrite field_of_2 by discriminate. auto.
Qed.

(** X8. When the amount is valid, the currency not empty and the
    conversion lookup returns a rate and a result, the record carries
    exactly that rate and that result, next to the unchanged local
    amount; the request carried the stripped currency and the parsed
    amount. *)
Theorem enrich_one_fx_found row session verbose now :
  exists out,
    returns (enrich_one row session verbose now) out
    /\ forall a rate usd,
         amount_local out = Some a ->
         local_currency out <> EmptyString ->
         returns (fx_to_usd (local_currency out) a session)
           (Some {[ "fx_rate_to_usd" := rate; "amount_usd" := usd ]}) ->
         fx_rate_to_usd out = Some rate /\ amount_usd out = Some usd
         /\ In (fx_request (strip (get_or_empty row "local_currency")) a)
              (requests_of (events (enrich_one row session verbose now))).
Proof.
  destruct (enrich_one_trace row session verbose now)
    as (out & amt & evs & Hrun & _ & _ & _ & Hcur & Hal & _ & Hreq).
  destruct (enrich_one_fields row session verbose now)
    as (out' & geo & Hret & _ & _ & _ & _ & _ & _ & Hfx).
  assert (out' = out) as ->.
  { apply (returns_inj _ _ _ Hret). unfold returns. rewrite Hrun. reflexivity. }
  exists out. split; [exact Hret|].
  intros a rate usd Ha Hc Hm.
  destruct (Hfx a Ha Hc) as (fx & Hr & -> & ->).
  rewrite (returns_inj _ _ _ Hr Hm).
  rewrite field_of_1. rewrite field_of_2 by discriminate.
  split; [reflexivity|]. split; [reflexivity|].
  unfold events. rewrite Hrun. cbn [snd]. rewrite Hreq.
  right. apply in_or_app. right.
  rewrite <- Hal, Ha. unfold str_truthy.
  destruct (String.eqb_spec (local_currency out) ""); [contradiction|].
  rewrite Hcur. left. reflexivity.
Qed.

(** ** The requests of one row *)

(** X9. [enrich_one] sends at most three requests, in the order
    geocoder, weather, conversion, never two to the same address, and
    the first always goes to the geocoder; each carries the time-out
    of 10 seconds. *)
Theorem enrich_one_requests_bounded row session verbose now :
  sublist (map url (requests_of (events (enrich_one row session verbose now))))
    [GEO_URL; WEATHER_URL; FX_URL]
  /\ head (map url (requests_of (events (enrich_one row session verbose now))))
     = Some GEO_URL
  /\ Forall (fun rq => timeout rq = 10)
       (requests_of (events (enrich_one row session verbose now))).
Proof.
  destruct (enrich_one_trace row session verbose now)
    as (out & amt & evs & Hrun & _ & _ & _ & _ & _ & _ & Hreq).
  unfold events. rewrite Hrun. cbn [snd]. rewrite Hreq.
  destruct (latitude out), (longitude out), amt as [a|];
    try destruct (str_truthy (local_currency out));
    cbn; (split; [|split; [reflexivity|]]); repeat constructor.
Qed.

(** ** Printing *)

Lemma same_refl {A} (m : M A) : same_outcome m m.
Proof. split; reflexivity. Qed.

Lemma same_bind {A B} (m1 m2 : M A) (k1 k2 : A -> M B) :
  same_outcome m1 m2 -> (forall a, same_outcome (k1 a) (k2 a)) ->
  same_outcome (bind m1 k1) (bind m2 k2).
Proof.
  unfold same_outcome, bind. intros [Hf Hr] Hk.
  destruct m1 as [[a|e] evs1], m2 as [[a'|e'] evs2]; cbn in *; try discriminate.
  - injection Hf as <-. destruct (Hk a) as [Hkf Hkr].
    destruct (k1 a) as [r1 e1], (k2 a) as [r2 e2]. cbn in *.
    rewrite !requests_of_app. split; congruence.
  - injection Hf as <-. split; [reflexivity | assumption].
Qed.

Lemma same_print_if v1 v2 m : same_outcome (print_if v1 m) (print_if v2 m).
Proof. destruct v1, v2; split; reflexivity. Qed.

Ltac same_outcome_tac :=
  repeat first
    [ apply same_refl
    | apply same_print_if
    | apply same_bind; [|intros ?]
    | match goal with
      | |- same_outcome (if ?c then _ else _) (if ?c then _ else _) => destruct c
      | |- same_outcome (match ?x with _ => _ end) (match ?x with _ => _ end) =>
          destruct x
      end ].

Lemma only_requests_ret {A} (a : A) : only_requests (ret a).
Proof. reflexivity. Qed.

Lemma only_requests_bind {A B} (m : M A) (k : A -> M B) :
  only_requests m -> (forall a, only_requests (k a)) -> only_requests (bind m k).
Proof.
  unfold only_requests, bind. intros Hm Hk.
  destruct m as [[a|e] evs]; cbn in *; [|exact Hm].
  specialize (Hk a). destruct (k a) as [r evs']. cbn in *.
  rewrite requests_of_app, map_app, <- Hm, <- Hk. reflexivity.
Qed.

Lemma only_requests_geocode_city c cc s : only_requests (geocode_city c cc s).
Proof.
  destruct (geocode_city_cases c cc s) as (r & E & _).
  unfold only_requests. rewrite E. reflexivity.
Qed.

Lemma only_requests_get_current_weather a b s :
  only_requests (get_current_weather a b s).
Proof.
  destruct (get_current_weather_cases a b s) as (r & E & _).
  unfold only_requests. rewrite E. reflexivity.
Qed.

Lemma only_requests_fx_to_usd c a s : only_requests (fx_to_usd c a s).
Proof.
  destruct (fx_to_usd_cases c a s) as (r & E & _).
  unfold only_requests. rewrite E. reflexivity.
Qed.

Lemma only_requests_parse_amount val : only_requests (parse_amount val).
Proof. rewrite parse_amount_eq. reflexivity. Qed.

Lemma only_requests_getitem d k : only_requests (getitem d k).
Proof. destruct d as [m|]; cbn; [destruct (m !! k)|]; reflexivity. Qed.

Ltac only_requests_tac :=
  repeat first
    [ apply only_requests_ret
    | apply only_requests_geocode_city
    | apply only_requests_get_current_weather
    | apply only_requests_fx_to_usd
    | apply only_requests_parse_amount
    | apply only_requests_getitem
    | apply only_requests_bind; [|intros ?]
    | match goal with
      | |- only_requests (if ?c then _ else _) => destruct c
      | |- only_requests (match ?x with _ => _ end) => destruct x
      end ].

(** X10. The [verbose] flag changes neither the record that
    [enrich_one] returns nor the requests it sends; and without it
    nothing is printed: the requests are the only events. *)
Theorem enrich_one_verbose_irrelevant row session now :
  fst (enrich_one row session true now) = fst (enrich_one row session false now)
  /\ requests_of (events (enrich_one row session true now))
     = requests_of (events (enrich_one row session false now))
  /\ events (enrich_one row session false now)
     = map Get (requests_of (events (enrich_one row session false now))).
Proof.
  assert (H : same_outcome (enrich_one row session true now)
                (enrich_one row session false now)).
  { unfold enrich_one, geocode_block, weather_block, fx_block.
    same_outcome_tac. }
  destruct H as [Hf Hr]. split; [exact Hf|]. split; [exact Hr|].
  change (only_requests (enrich_one row session false now)).
  unfold enrich_one, geocode_block, weather_block, fx_block, print_if.
  only_requests_tac.
Qed.

(** ** The conversion does not depend on the other services *)

Lemma fx_to_usd_ext cur a (s1 s2 : Session) :
  s1 (fx_request cur a) = s2 (fx_request cur a) ->
  fx_to_usd cur a s1 = fx_to_usd cur a s2.
Proof.
  intros H. unfold fx_to_usd, session_get. unfold fx_request in H.
  rewrite H. reflexivity.
Qed.

(** X11. The conversion fields depend only on the row and on the
    answers of the conversion service: two sessions that answer the
    conversion requests alike give the same local amount, rate and
    converted amount, whatever the geocoder and the weather service
    do. *)
Theorem enrich_one_fx_independent row (s1 s2 : Session) verbose now :
  (forall rq, url rq = FX_URL -> s1 rq = s2 rq) ->
  exists out1 out2,
    returns (enrich_one row s1 verbose now) out1
    /\ returns (enrich_one row s2 verbose now) out2
    /\ amount_local out1 = amount_local out2
    /\ fx_rate_to_usd out1 = fx_rate_to_usd out2
    /\ amount_usd out1 = amount_usd out2.
Proof.
  intros Hagree.
  destruct (enrich_one_trace row s1 verbose now)
    as (out1 & amt1 & evs1 & Hrun1 & Hamt1 & _ & _ & Hcur1 & Hal1 & _).
  destruct (enrich_one_trace row s2 verbose now)
    as (out2 & amt2 & evs2 & Hrun2 & Hamt2 & _ & _ & Hcur2 & Hal2 & _).
  rewrite Hamt1 in Hamt2. injection Hamt2 as <-.
  destruct (enrich_one_fields row s1 verbose now)
    as (o1 & g1 & Hr1 & _ & _ & _ & _ & _ & Hno1 & Hfx1).
  destruct (enrich_one_fields row s2 verbose now)
    as (o2 & g2 & Hr2 & _ & _ & _ & _ & _ & Hno2 & Hfx2).
  assert (o1 = out1) as ->.
  { apply (returns_inj _ _ _ Hr1). unfold returns. rewrite Hrun1. reflexivity. }
  assert (o2 = out2) as ->.
  { apply (returns_inj _ _ _ Hr2). unfold returns. rewrite Hrun2. reflexivity. }
  exists out1, out2. split; [exact Hr1|]. split; [exact Hr2|].
  split; [congruence|].
  destruct amt1 as [a|].
  - destruct (String.eqb_spec (local_currency out1) "") as [E|E].
    + destruct (Hno1 (or_intror E)) as [-> ->].
      rewrite Hcur1, <- Hcur2 in E.
      destruct (Hno2 (or_intror E)) as [-> ->]. auto.
    + destruct (Hfx1 a Hal1 E) as (fx1 & Hf1 & -> & ->).
      assert (E2 : local_currency out2 <> EmptyString) by congruence.
      destruct (Hfx2 a Hal2 E2) as (fx2 & Hf2 & -> & ->).
      rewrite Hcur2, <- Hcur1 in Hf2.
      rewrite (fx_to_usd_ext _ _ s1 s2 (Hagree (fx_request _ _) eq_refl)) in Hf1.
      rewrite (returns_inj _ _ _ Hf1 Hf2). auto.
  - destruct (Hno1 (or_introl Hal1)) as [-> ->].
    destruct (Hno2 (or_introl Hal2)) as [-> ->]. auto.
Qed.

Lemma enrich_one_fx_independent_witness :
  exists out1 out2,
    returns (enrich_one berlin fake_get false noon) out1
    /\ returns (enrich_one berlin geo_down false noon) out2
    /\ amount_local out1 = amount_local out2
    /\ fx_rate_to_usd out1 = fx_rate_to_usd out2
    /\ amount_usd out1 = amount_usd out2.
Proof.
  apply (enrich_one_fx_independent berlin fake_get geo_down false noon).
  intros rq Hu. unfold geo_down. rewrite Hu. reflexivity.
Defined.

(** ** Blank cells *)

Lemma lstrip_all_space s :
  all_space s = true -> lstrip_with isspace s = EmptyString.
Proof.
  induction s as [|c s IH]; [reflexivity|]. cbn.
  destruct (isspace c); [exact IH | discriminate].
Qed.

Lemma strip_all_space s : all_space s = true -> strip s = EmptyString.
Proof. intros H. unfold strip. rewrite (lstrip_all_space s H). reflexivity. Qed.

(** X12. When the amount cell or the currency cell is missing, [None],
    empty or made of whitespace only, no request goes to the
    conversion service and the rate and the converted amount are
    absent; a blank amount is read as no amount. *)
Theorem enrich_one_blank_amount_or_currency row session verbose now :
  all_space (get_or_empty row "amount") = true
  \/ all_space (get_or_empty row "local_currency") = true ->
  exists out,
    returns (enrich_one row session verbose now) out
    /\ fx_rate_to_usd out = None /\ amount_usd out = None
    /\ ~ called FX_URL (events (enrich_one row session verbose now))
    /\ (all_space (get_or_empty row "amount") = true -> amount_local out = None).
Proof.
  intros Hblank.
  destruct (enrich_one_trace row session verbose now)
    as (out & amt & evs & Hrun & Hamt & _ & _ & Hcur & Hal & _ & Hreq).
  destruct (enrich_one_fields row session verbose now)
    as (o & g & Hr & _ & _ & _ & _ & _ & Hno & _).
  assert (o = out) as ->.
  { apply (returns_inj _ _ _ Hr). unfold returns. rewrite Hrun. reflexivity. }
  assert (Hamt0 : all_space (get_or_empty row "amount") = true -> amt = None).
  { intros H. rewrite (strip_all_space _ H) in Hamt.
    change (parse_amount "") with (@ret (option spec_float) None) in Hamt.
    unfold ret in Hamt. congruence. }
  assert (Hcase : amt = None \/ local_currency out = EmptyString).
  { destruct Hblank as [H | H]; [left; auto|].
    right. rewrite Hcur. apply strip_all_space, H. }
  exists out. split; [exact Hr|].
  destruct (Hno ltac:(rewrite Hal; exact Hcase)) as [-> ->].
  split; [reflexivity|]. split; [reflexivity|]. split.
  - unfold events, called. rewrite Hrun. cbn [snd]. rewrite Hreq.
    intros (rq & [<- | Hin] & Hu); [discriminate Hu|].
    apply in_app_or in Hin. destruct Hin as [Hin | Hin].
    + destruct (latitude out), (longitude out); try destruct Hin as [<- | []];
        try destruct Hin; discriminate Hu.
    + destruct Hcase as [-> | E]; [destruct Hin|].
      rewrite E in Hin. cbn in Hin. destruct amt; destruct Hin.
  - intros H. rewrite Hal. auto.
Qed.

Lemma enrich_one_blank_amount_or_currency_witness :
  exists out,
    returns (enrich_one lima fake_get true noon) out
    /\ fx_rate_to_usd out = None /\ amount_usd out = None
    /\ ~ called FX_URL (events (enrich_one lima fake_get true noon))
    /\ (all_space (get_or_empty lima "amount") = true -> amount_local out = None).
Proof.
  apply (enrich_one_blank_amount_or_currency lima fake_get true noon).
  right. vm_compute. reflexivity.
Defined.

(** ** What [enrich_one] reads of a row *)

(** X13. [enrich_one] reads four keys of the row and only their
    stripped values: two rows that agree on them after stripping, a
    missing key and [None] counting as empty, give the same record
    and the same events, whatever else the rows hold. *)
Theorem enrich_one_reads_four_fields (row1 row2 : Row) session verbose now :
  (forall k, In k ["city"; "country_code"; "local_currency"; "amount"] ->
     strip (get_or_empty row1 k) = strip (get_or_empty row2 k)) ->
  enrich_one row1 session verbose now = enrich_one row2 session verbose now.
Proof.
  intros H. unfold enrich_one.
  rewrite (H "city"), (H "country_code"), (H "local_currency"), (H "amount");
    cbn; tauto.
Qed.

Lemma enrich_one_reads_four_fields_witness :
  enrich_one lima fake_get true noon = enrich_one lima_padded fake_get true noon.
Proof.
  apply (enrich_one_reads_four_fields lima lima_padded fake_get true noon).
  intros k [<- | [<- | [<- | [<- | []]]]]; vm_compute; reflexivity.
Defined.

(** ** The writers, cell by cell *)

(** X14. [write_csv] never raises and writes one file: the fixed
    header of eleven names and one line per record, in the order of
    the records; under each header name stands the value that the
    JSON object of the record has under that name, an absent field
    being [None]. *)
Theorem write_csv_layout rows path :
  exists lines,
    write_csv rows path = (Ok tt, [WriteFile path (CsvFile csv_headers lines)])
    /\ length csv_headers = 11%nat
    /\ length lines = length rows
    /\ Forall2 (fun r line => combine csv_headers line = asdict r) rows lines.
Proof.
  exists (map (fun r => map snd (asdict r)) rows).
  split; [rewrite write_csv_eq; reflexivity|].
  split; [reflexivity|]. split; [apply length_map|].
  induction rows as [|r rows IH]; constructor; [reflexivity | exact IH].
Qed.

Lemma of_float_inj x y : of_float x = of_float y -> x = y.
Proof. destruct x, y; cbn; congruence. Qed.

(** X15. The JSON object of a record has the eleven keys of the CSV
    header, in the same order, and keeps every field: two records
    with the same object are the same record. *)
Theorem asdict_injective r1 r2 :
  map fst (asdict r1) = csv_headers
  /\ (asdict r1 = asdict r2 -> r1 = r2).
Proof.
  split; [reflexivity|].
  destruct r1, r2. unfold asdict. cbn. intros H.
  injection H as -> -> -> H1 H2 H3 H4 H5 H6 H7 ->.
  apply of_float_inj in H1, H2, H3, H4, H5, H6, H7. subst. reflexivity.
Qed.

(** ** The number of workers *)

(** X16. The number of workers is always at least one; it is the
    value of [--workers] when that is positive, and otherwise the
    number of processors but at least four (four when the number of
    processors is unknown or zero). *)
Theorem decide_workers_positive args w :
  1 <= decide_workers args w
  /\ (0 < workers args -> decide_workers args w = workers args)
  /\ (workers args <= 0 ->
      decide_workers args w
      = Z.max 4 (match cpu_count w with Some n => n | None => 0 end)).
Proof.
  unfold decide_workers.
  destruct (Z.eqb_spec (workers args) 0) as [E0|E0];
    destruct (Z.ltb_spec 0 (workers args)) as [Hp|Hp]; cbn [negb andb];
    repeat split; try lia; intros _;
    destruct (cpu_count w) as [n|]; try reflexivity;
    destruct (Z.eqb_spec n 0); subst; try reflexivity; lia.
Qed.

(** ** The width of the time stamp *)

Lemma string_length_app (a b : string) :
  String.length (a ++ b) = (String.length a + String.length b)%nat.
Proof.
  induction a as [|c a IH]; [reflexivity|].
  change (String c a ++ b)%string with (String c (a ++ b)%string).
  cbn [String.length]. rewrite IH. reflexivity.
Qed.

Lemma zeros_length k : String.length (zeros k) = k.
Proof. induction k as [|k IH]; [reflexivity|]. cbn. rewrite IH. reflexivity. Qed.

Lemma digits_from_length_le k :
  forall fuel n acc,
    (n < 10 ^ S k)%nat ->
    (String.length (digits_from fuel n acc) <= S k + String.length acc)%nat.
Proof.
  induction k as [|k IH]; intros fuel n acc Hn;
    (destruct fuel as [|fuel]; [cbn [digits_from]; lia|]);
    rewrite digits_from_S.
  - rewrite Nat.div_small by (cbn in Hn; lia). cbn [String.length]. lia.
  - destruct (n / 10)%nat as [|q] eqn:Hq; [cbn [String.length]; lia|].
    assert (Hlt : (S q < 10 ^ S k)%nat).
    { rewrite <- Hq. apply Nat.Div0.div_lt_upper_bound.
      change (10 ^ S (S k))%nat with (10 * 10 ^ S k)%nat in Hn. exact Hn. }
    specialize (IH fuel (S q) (String (ascii_of_nat (48 + n mod 10)) acc) Hlt).
    cbn [String.length] in IH. lia.
Qed.

Lemma zfill_length w n :
  (1 <= w)%nat -> (n < 10 ^ w)%nat -> String.length (zfill w n) = w.
Proof.
  intros Hw Hn. unfold zfill, str_of_nat.
  rewrite string_length_app, zeros_length.
  destruct w as [|k]; [lia|].
  pose proof (digits_from_length_le k (S n) n EmptyString Hn) as Hle.
  cbn [String.length] in Hle. lia.
Qed.

(** X17. For a clock reading within the ranges of a date and time
    (a year of at most four digits, the other fields of at most two),
    the time stamp has exactly twenty characters. *)
Theorem _utc_now_iso_length now :
  (year now < 10 ^ 4)%nat -> (month now < 10 ^ 2)%nat ->
  (day now < 10 ^ 2)%nat -> (hour now < 10 ^ 2)%nat ->
  (minute now < 10 ^ 2)%nat -> (second now < 10 ^ 2)%nat ->
  String.length (_utc_now_iso now) = 20%nat.
Proof.
  intros Hy Hmo Hd Hh Hmi Hs. rewrite _utc_now_iso_shape.
  rewrite !string_length_app.
  rewrite (zfill_length 4 (year now)) by (assumption || lia).
  rewrite !(zfill_length 2) by (assumption || lia).
  reflexivity.
Qed.

Lemma _utc_now_iso_length_witness : String.length (_utc_now_iso noon) = 20%nat.
Proof.
  apply (_utc_now_iso_length noon); apply Nat.ltb_lt; vm_compute; reflexivity.
Defined.

(** ** The run as a whole *)

Lemma as_completed_nil order : as_completed [] order = [].
Proof.
  unfold as_completed. induction order as [|p order IH]; [reflexivity|].
  cbn. rewrite lookup_nil. cbn. exact IH.
Qed.

(** X18. For a file with a valid header and no data line, [main]
    sends no request and writes the empty collection to the output
    path; with [--verbose] it then reports zero rows. *)
Theorem main_empty_input args rdr w :
  header_set rdr = req_headers ->
  records rdr = [] ->
  main args rdr w
  = (Ok tt,
     WriteFile (output args) (file_of args [])
       :: (if verbose args then [Print (Wrote 0 (output args))] else [])).
Proof.
  intros Hh Hrec.
  destruct (load_rows_cases rdr) as [[_ Hl] | [Hne _]]; [|contradiction].
  unfold main. rewrite (bind_ok _ _ _ _ Hl). cbn [fst snd app].
  rewrite Hrec. unfold make_fut_map. cbn [imap].
  rewrite as_completed_nil. cbn [collect]. rewrite bind_ret.
  rewrite write_file_of. unfold print_if.
  destruct (verbose args); reflexivity.
Qed.

Lemma main_empty_input_witness :
  main json_args empty_file idle
  = (Ok tt,
     WriteFile (output json_args) (file_of json_args [])
       :: (if verbose json_args then [Print (Wrote 0 (output json_args))] else [])).
Proof.
  apply (main_empty_input json_args empty_file idle); [|reflexivity].
  apply set_eq. intros c. rewrite header_set_elem, req_headers_elem. reflexivity.
Defined.

Lemma no_write_app evs1 evs2 : no_write evs1 -> no_write evs2 -> no_write (evs1 ++ evs2).
Proof. unfold no_write. intros H1 H2. apply Forall_app. split; assumption. Qed.

Lemma only_requests_no_write {A} (m : M A) : only_requests m -> no_write (snd m).
Proof.
  unfold only_requests, no_write. intros ->.
  induction (requests_of (snd m)) as [|rq l IH]; constructor; [exact I | exact IH].
Qed.

Lemma print_if_no_write v m : no_write (snd (print_if v m)).
Proof. destruct v; repeat constructor. Qed.

Lemma no_write_bind {A B} (m : M A) (k : A -> M B) :
  no_write (snd m) -> (forall a, no_write (snd (k a))) -> no_write (snd (bind m k)).
Proof.
  unfold bind. intros Hm Hk. destruct m as [[a|e] evs]; cbn in *; [|exact Hm].
  specialize (Hk a). destruct (k a) as [r evs']. cbn in *.
  apply no_write_app; assumption.
Qed.

Ltac no_write_tac :=
  repeat first
    [ apply print_if_no_write
    | apply only_requests_no_write;
      first [ apply only_requests_ret | apply only_requests_geocode_city
            | apply only_requests_get_current_weather
            | apply only_requests_fx_to_usd | apply only_requests_parse_amount
            | apply only_requests_getitem ]
    | apply no_write_bind; [|intros ?]
    | match goal with
      | |- no_write (snd (if ?c then _ else _)) => destruct c
      | |- no_write (snd (match ?x with _ => _ end)) => destruct x
      end ].

Lemma enrich_one_no_write row session verbose now :
  no_write (snd (enrich_one row session verbose now)).
Proof.
  unfold enrich_one, geocode_block, weather_block, fx_block. no_write_tac.
Qed.

Lemma enrich_one_only_requests row session now :
  only_requests (enrich_one row session false now).
Proof.
  unfold enrich_one, geocode_block, weather_block, fx_block, print_if.
  only_requests_tac.
Qed.

Lemma enrich_one_at_most_three row session verbose now :
  (length (requests_of (snd (enrich_one row session verbose now))) <= 3)%nat.
Proof.
  destruct (enrich_one_trace row session verbose now)
    as (out & amt & evs & Hrun & _ & _ & _ & _ & _ & _ & Hreq).
  rewrite Hrun. cbn [snd]. rewrite Hreq.
  destruct (latitude out), (longitude out), amt as [a|];
    try destruct (str_truthy (local_currency out)); cbn; lia.
Qed.

(** The run of [main] on a valid file, with the events of the tasks. *)
Lemma main_run args rdr w :
  header_set rdr = req_headers ->
  Forall (fun p => (p < length (records rdr))%nat) (completion_order w) ->
  exists enriched futs,
    main args rdr w
    = (Ok tt, concat (map snd futs)
              ++ WriteFile (output args) (file_of args enriched)
                 :: (if verbose args
                     then [Print (Wrote (length enriched) (output args))]
                     else []))
    /\ Forall2 (fun p fut => exists row, records rdr !! p = Some row
                               /\ fut = submit w (verbose args) p row)
         (completion_order w) futs
    /\ Forall2 returns futs enriched.
Proof.
  intros Hh Hord.
  destruct (load_rows_cases rdr) as [[_ Hl] | [Hne _]]; [|contradiction].
  pose proof (as_completed_spec w (verbose args) (records rdr) _ Hord) as Hfuts.
  set (futs := as_completed _ _) in *.
  destruct (collect_spec futs (submitted_return _ _ _ _ _ Hfuts) [])
    as (enriched & Hrs & Hc).
  exists enriched, futs. split; [|split; assumption].
  unfold main. rewrite (bind_ok _ _ _ _ Hl). cbn [fst snd app].
  fold futs. rewrite (bind_ok _ _ _ _ Hc). cbn [fst snd app].
  rewrite write_file_of. unfold print_if.
  destruct (verbose args); reflexivity.
Qed.

(** X19. On a valid file, [main] writes exactly once, to the output
    path, after all the requests: the events before the write are the
    requests and prints of the tasks, at most three requests for each
    task, and none of them writes; after the write comes at most the
    report of [--verbose].  Without [--verbose] the events before the
    write are requests only. *)
Theorem main_writes_once args rdr w :
  header_set rdr = req_headers ->
  Forall (fun p => (p < length (records rdr))%nat) (completion_order w) ->
  exists enriched evs,
    main args rdr w
    = (Ok tt, evs ++ WriteFile (output args) (file_of args enriched)
                     :: (if verbose args
                         then [Print (Wrote (length enriched) (output args))]
                         else []))
    /\ no_write evs
    /\ (length (requests_of evs) <= 3 * length (completion_order w))%nat
    /\ (verbose args = false -> evs = map Get (requests_of evs)).
Proof.
  intros Hh Hord.
  destruct (main_run args rdr w Hh Hord) as (enriched & futs & Hm & Hfuts & _).
  exists enriched, (concat (map snd futs)). split; [exact Hm|].
  clear Hm Hord. induction Hfuts as [|p fut order futs (row & _ & ->) _ IH].
  - repeat split; [constructor | cbn; lia].
  - destruct IH as (IH1 & IH2 & IH3). cbn [map concat length].
    split; [|split].
    + apply no_write_app; [apply enrich_one_no_write | exact IH1].
    + rewrite requests_of_app, length_app.
      pose proof (enrich_one_at_most_three row (session_for w p) (verbose args)
                    (clock_for w p)) as H3.
      unfold submit. lia.
    + intros Hv. rewrite requests_of_app, map_app, <- (IH3 Hv).
      f_equal. unfold submit. rewrite Hv. apply enrich_one_only_requests.
Qed.

Lemma main_writes_once_witness :
  exists enriched evs,
    main json_args good_file second_first
    = (Ok tt, evs ++ WriteFile (output json_args) (file_of json_args enriched)
                     :: (if verbose json_args
                         then [Print (Wrote (length enriched) (output json_args))]
                         else []))
    /\ no_write evs
    /\ (length (requests_of evs) <= 3 * length (completion_order second_first))%nat
    /\ (verbose json_args = false -> evs = map Get (requests_of evs)).
Proof.
  apply (main_writes_once json_args good_file second_first).
  - exact header_set_good_file.
  - repeat constructor.
Defined.



(** ** The message of a refused header *)

#[local] Instance str_le_total : Total str_le.
Proof. intros a b. apply String.leb_total. Qed.

(** X21. When [load_rows] refuses a header, the message always names
    the four required columns in alphabetical order, and lists the
    missing and the unexpected columns each in ascending order and
    without repetition (a column repeated in the header is listed
    once); no column is in both lists. *)
Theorem exit_message_lists rdr msg :
  raises (load_rows rdr) (SystemExit msg) ->
  msg_expect msg = ["amount"; "city"; "country_code"; "local_currency"]
  /\ Sorted str_le (msg_missing msg) /\ Sorted str_le (msg_extra msg)
  /\ NoDup (msg_missing msg) /\ NoDup (msg_extra msg)
  /\ (forall c, c ∈ msg_missing msg -> c ∉ msg_extra msg).
Proof.
  unfold raises. intros H.
  destruct (load_rows_cases rdr) as [[_ Hl] | [_ Hl]]; rewrite Hl in H;
    [discriminate|].
  injection H as <-. cbn [msg_expect msg_missing msg_extra].
  split; [vm_compute; reflexivity|].
  split; [apply Sorted_merge_sort, _|]. split; [apply Sorted_merge_sort, _|].
  split; [unfold sorted; rewrite merge_sort_Permutation; apply NoDup_elements|].
  split; [unfold sorted; rewrite merge_sort_Permutation; apply NoDup_elements|].
  intros c Hm He. apply sorted_elem, elem_of_difference in Hm, He.
  destruct Hm as [Hm _], He as [_ He]. contradiction.
Qed.

Lemma exit_message_lists_witness :
  raises (load_rows bad_file) (SystemExit bad_file_message)
  /\ msg_expect bad_file_message
     = ["amount"; "city"; "country_code"; "local_currency"]
  /\ Sorted str_le (msg_missing bad_file_message)
  /\ Sorted str_le (msg_extra bad_file_message)
  /\ NoDup (msg_missing bad_file_message) /\ NoDup (msg_extra bad_file_message)
  /\ (forall c, c ∈ msg_missing bad_file_message -> c ∉ msg_extra bad_file_message).
Proof.
  assert (H : raises (load_rows bad_file) (SystemExit bad_file_message))
    by (vm_compute; reflexivity).
  split; [exact H|]. exact (exit_message_lists bad_file bad_file_message H).
Defined.

(** ** The header as a set *)

(** X22. [load_rows] looks at the header as a set of names: two files
    with the same data lines whose headers hold the same names give
    the same outcome, rows or message, whatever the order of the
    names and however often a name is repeated. *)
Theorem load_rows_header_as_set rdr1 rdr2 :
  (forall c, c ∈ default [] (fieldnames rdr1)
             <-> c ∈ default [] (fieldnames rdr2)) ->
  records rdr1 = records rdr2 ->
  load_rows rdr1 = load_rows rdr2.
Proof.
  intros Hn Hr.
  assert (Hs : header_set rdr1 = header_set rdr2).
  { apply set_eq. intros c. rewrite !header_set_elem. apply Hn. }
  unfold load_rows. rewrite Hs, Hr. reflexivity.
Qed.

Lemma load_rows_header_as_set_witness :
  load_rows good_file = load_rows shuffled_file.
Proof.
  apply (load_rows_header_as_set good_file shuffled_file); [|reflexivity].
  intros c. cbn. rewrite !elem_of_cons, !elem_of_nil. tauto.
Defined.
